(** * HawkStudio server: the resilient database-access layer

    A shallow embedding of [src/server.py]: the [Database] class (lazy
    connection pool, retry counter, query executor, schema bootstrap) and
    the HTTP handlers that sit directly on top of it.

    The MySQL driver ([mysql.connector]) and [bcrypt] are external to the
    repository.  They are modelled as an interface, the class [Driver]:
    every driver call is a transition of an abstract [world] that either
    returns a value or raises a Python exception.  The program is then
    written in a small state-and-exception monad over the [Database]
    object, the driver's world and a log of the driver calls performed.
    Results that hold for every [Driver] hold whatever the database does.

    Two drivers are given for running the program: a fault-injected one
    ([Faulty]) and a MySQL server with a store of the four tables
    ([Server]).

    The file has three parts: the program and its drivers, the properties
    stated about them, and their proofs.

    [print] statements and [app.logger] calls only write to the console and
    are left out of the model.  Exceptions outside [Exception]
    ([KeyboardInterrupt], [SystemExit]) are not modelled. *)

From Stdlib Require Import String Ascii ZArith List Bool Lia RelationClasses.
Import ListNotations.

Open Scope string_scope.
Open Scope Z_scope.

(** ** Python values and rows *)

(** The values that flow through the code under study: cells of result
    rows, statement parameters and JSON request fields. *)
Inductive value : Type :=
| VNone
| VBool (b : bool)
| VInt (z : Z)
| VStr (s : string)
| VDate (iso : string).

(** Python truthiness ([if v], [not v], [v or d]). *)
Definition truthy (v : value) : bool :=
  match v with
  | VNone => false
  | VBool b => b
  | VInt z => negb (z =? 0)
  | VStr s => negb (s =? "")%string
  | VDate _ => true
  end.

(** [v or d] *)
Definition py_or (v d : value) : value := if truthy v then v else d.

(** Python [==] against a string literal: only an equal [str] is equal. *)
Definition eq_str (v : value) (s : string) : bool :=
  match v with
  | VStr t => (t =? s)%string
  | _ => false
  end.

(** A row fetched through [cursor(dictionary=True)], and a JSON object:
    a [dict] with string keys, in insertion order. *)
Definition row : Type := list (string * value).

(** [d.get(k)]: [None] when the key is absent. *)
Fixpoint dict_get (d : row) (k : string) : option value :=
  match d with
  | [] => None
  | (k', v) :: d' => if (k' =? k)%string then Some v else dict_get d' k
  end.

(** [d[k] = v] *)
Fixpoint dict_set (d : row) (k : string) (v : value) : row :=
  match d with
  | [] => [(k, v)]
  | (k', v') :: d' =>
      if (k' =? k)%string then (k, v) :: d' else (k', v') :: dict_set d' k v
  end.

(** [pat in s] on strings. *)
Fixpoint contains (pat s : string) : bool :=
  if String.prefix pat s then true
  else match s with
       | EmptyString => false
       | String _ s' => contains pat s'
       end.

(** ** Exceptions *)

(** The two [except] clauses of the source tell [mysql.connector.Error]
    from every other [Exception]. *)
Inductive exn_class : Type := MySQLError | OtherException.

Record exn : Type := mk_exn { exn_cls : exn_class; exn_str : string }.

Inductive res (A : Type) : Type :=
| Ok (a : A)
| Raise (e : exn).
Arguments Ok {A} a.
Arguments Raise {A} e.

(** ** The driver interface *)

Definition pool_t : Type := nat.
Definition conn_t : Type := nat.
Definition cursor_t : Type := nat.

(** The [pool_config] dictionary of [_init_pool]. *)
Record pool_config : Type := mk_pool_config {
  pool_name : string;
  pool_size : Z;
  pool_reset_session : bool;
  cfg_host : string;
  cfg_user : string;
  cfg_password : string;
  cfg_database : string;
  cfg_port : Z;
  charset : string;
  use_unicode : bool;
  autocommit : bool;
  use_pure : bool;
  connection_timeout : Z;
  auth_plugin : string;
  connect_timeout : Z
}.

(** What the program calls in [mysql.connector] and [bcrypt].  A statement's
    parameters are a list of values; the source's [params or ()] turns a
    missing parameter tuple into the empty one before the driver sees it. *)
Class Driver : Type := {
  world : Type;
  MySQLConnectionPool : pool_config -> world -> res pool_t * world;
  pool_get_connection : pool_t -> world -> res conn_t * world;
  conn_is_connected : conn_t -> world -> res bool * world;
  conn_cursor : conn_t -> bool -> world -> res cursor_t * world;
  conn_commit : conn_t -> world -> res unit * world;
  conn_rollback : conn_t -> world -> res unit * world;
  conn_close : conn_t -> world -> res unit * world;
  cursor_execute : cursor_t -> string -> list value -> world -> res unit * world;
  cursor_fetchone : cursor_t -> world -> res (option row) * world;
  cursor_fetchall : cursor_t -> world -> res (list row) * world;
  cursor_rowcount : cursor_t -> world -> res Z * world;
  cursor_close : cursor_t -> world -> res unit * world;
  bcrypt_hashpw : string -> world -> res string * world
}.

(** One entry of the log per driver call attempted. *)
Inductive event : Type :=
| EvPoolNew (cfg : pool_config)
| EvPoolGet (p : pool_t)
| EvIsConnected (c : conn_t)
| EvCursor (c : conn_t) (dictionary : bool)
| EvCommit (c : conn_t)
| EvRollback (c : conn_t)
| EvConnClose (c : conn_t)
| EvExecute (cur : cursor_t) (query : string) (params : list value)
| EvFetchone (cur : cursor_t)
| EvFetchall (cur : cursor_t)
| EvRowcount (cur : cursor_t)
| EvCursorClose (cur : cursor_t)
| EvHashpw (password : string).

(** ** The state-and-exception monad *)

Definition M (S A : Type) : Type := S -> res A * S.

Definition ret {S A} (a : A) : M S A := fun s => (Ok a, s).

Definition raise {S A} (e : exn) : M S A := fun s => (Raise e, s).

Definition bind {S A B} (m : M S A) (k : A -> M S B) : M S B :=
  fun s =>
    match m s with
    | (Ok a, s') => k a s'
    | (Raise e, s') => (Raise e, s')
    end.

Declare Scope py_scope.
Delimit Scope py_scope with py.
Notation "x <- m ;; k" := (bind m (fun x => k))
  (at level 100, m at next level, right associativity) : py_scope.
Notation "m ;; k" := (bind m (fun _ => k))
  (at level 100, right associativity) : py_scope.
Open Scope py_scope.

(** [try: body  except Exception as e: handler e] (also the bare
    [except:]). *)
Definition try_except {S A} (body : M S A) (handler : exn -> M S A) : M S A :=
  fun s =>
    match body s with
    | (Ok a, s') => (Ok a, s')
    | (Raise e, s') => handler e s'
    end.

(** [try: body  except Error as e: on_error e  except Exception as e:
    on_exception e]. *)
Definition try_except_Error {S A} (body : M S A)
    (on_error on_exception : exn -> M S A) : M S A :=
  try_except body
    (fun e => match exn_cls e with
              | MySQLError => on_error e
              | OtherException => on_exception e
              end).

(** [try: body  finally: fin].  The value (or exception) of [body] is
    kept unless [fin] itself raises. *)
Definition try_finally {S A} (body : M S A) (fin : M S unit) : M S A :=
  fun s =>
    let (r, s1) := body s in
    match fin s1 with
    | (Ok _, s2) => (r, s2)
    | (Raise e, s2) => (Raise e, s2)
    end.

(** [for x in xs: body x] *)
Fixpoint for_each {S A} (xs : list A) (body : A -> M S unit) : M S unit :=
  match xs with
  | [] => ret tt
  | x :: xs' => body x ;; for_each xs' body
  end.

(** ** The [Database] object *)

Record Database : Type := mk_Database {
  host : string;
  user : string;
  password : string;
  database : string;
  port : Z;
  pool : option pool_t;
  _initialized : bool;
  _connection_error : bool;
  _error_count : Z;
  _max_retries : Z
}.

(** [Database.__init__], after the environment has been read. *)
Definition Database_init (h u pw dbname : string) (prt : Z) : Database :=
  {| host := h; user := u; password := pw; database := dbname; port := prt;
     pool := None; _initialized := false; _connection_error := false;
     _error_count := 0; _max_retries := 3 |}.

(** The defaults of [os.getenv] in [__init__]. *)
Definition Database_default : Database :=
  Database_init "localhost" "root" "" "hawkstudio_db" 3306.

Definition set_pool (p : option pool_t) (d : Database) : Database :=
  {| host := host d; user := user d; password := password d;
     database := database d; port := port d;
     pool := p; _initialized := _initialized d;
     _connection_error := _connection_error d;
     _error_count := _error_count d; _max_retries := _max_retries d |}.

Definition set_initialized (b : bool) (d : Database) : Database :=
  {| host := host d; user := user d; password := password d;
     database := database d; port := port d;
     pool := pool d; _initialized := b;
     _connection_error := _connection_error d;
     _error_count := _error_count d; _max_retries := _max_retries d |}.

Definition set_connection_error (b : bool) (d : Database) : Database :=
  {| host := host d; user := user d; password := password d;
     database := database d; port := port d;
     pool := pool d; _initialized := _initialized d;
     _connection_error := b;
     _error_count := _error_count d; _max_retries := _max_retries d |}.

Definition set_error_count (n : Z) (d : Database) : Database :=
  {| host := host d; user := user d; password := password d;
     database := database d; port := port d;
     pool := pool d; _initialized := _initialized d;
     _connection_error := _connection_error d;
     _error_count := n; _max_retries := _max_retries d |}.

(** The [pool_config] dictionary built in [_init_pool]. *)
Definition pool_config_of (d : Database) : pool_config :=
  {| pool_name := "hawkstudio_pool";
     pool_size := 5;
     pool_reset_session := true;
     cfg_host := host d;
     cfg_user := user d;
     cfg_password := password d;
     cfg_database := database d;
     cfg_port := port d;
     charset := "utf8mb4";
     use_unicode := true;
     autocommit := true;
     use_pure := true;
     connection_timeout := 10;
     auth_plugin := "mysql_native_password";
     connect_timeout := 5 |}.

(** Truthiness of [self.pool]: a pool object is truthy, [None] is not.
    The same holds for connections and cursors ([if conn], [if cursor]),
    which the model reads off the [option]. *)
Definition has_pool (d : Database) : bool :=
  match pool d with Some _ => true | None => false end.

(** ** The program *)

Section Program.

Context {D : Driver}.

(** The state the methods run in: the global [db] object, the world behind
    the driver, and the log of driver calls. *)
Record sys : Type := mk_sys {
  db : Database;
  wld : world;
  trace : list event
}.

(** A driver call: logged, then performed. *)
Definition call {A} (ev : event) (op : world -> res A * world) : M sys A :=
  fun s =>
    let (r, w) := op (wld s) in
    (r, {| db := db s; wld := w; trace := trace s ++ [ev] |}).

Definition self : M sys Database := fun s => (Ok (db s), s).

Definition update (f : Database -> Database) : M sys unit :=
  fun s => (Ok tt, {| db := f (db s); wld := wld s; trace := trace s |}).

(** *** [Database._init_pool] *)

Definition _init_pool : M sys bool :=
  try_except
    (d <- self ;;
     if has_pool d then ret true
     else
       p <- call (EvPoolNew (pool_config_of d))
                 (MySQLConnectionPool (pool_config_of d)) ;;
       update (set_pool (Some p)) ;;
       update (set_initialized true) ;;
       update (set_connection_error false) ;;
       update (set_error_count 0) ;;
       ret true)
    (fun e =>
       update (set_connection_error true) ;;
       update (fun d => set_error_count (_error_count d + 1) d) ;;
       update (set_pool None) ;;
       ret false).

(** *** [Database.get_connection] *)

(** The gate of [get_connection]:
    [self._connection_error and self._error_count > self._max_retries]. *)
Definition ceiling_exceeded (d : Database) : bool :=
  _connection_error d && (_error_count d >? _max_retries d).

Definition get_connection : M sys (option conn_t) :=
  try_except
    (let rest : M sys (option conn_t) :=
       d <- self ;;
       if ceiling_exceeded d then ret None
       else
         match pool d with
         | Some p =>
             conn <- call (EvPoolGet p) (pool_get_connection p) ;;
             alive <- call (EvIsConnected conn) (conn_is_connected conn) ;;
             if alive then ret (Some conn)
             else
               call (EvConnClose conn) (conn_close conn) ;;
               ret None
         | None =>
             if _error_count d <=? _max_retries d then
               _init_pool ;;
               d' <- self ;;
               match pool d' with
               | Some p =>
                   conn <- call (EvPoolGet p) (pool_get_connection p) ;;
                   ret (Some conn)
               | None => ret None
               end
             else ret None
         end
     in
     d <- self ;;
     if negb (has_pool d) && negb (_initialized d) then
       ok <- _init_pool ;;
       if negb ok then ret None else rest
     else rest)
    (fun e =>
       update (fun d => set_error_count (_error_count d + 1) d) ;;
       (if contains "bytearray index out of range" (exn_str e) then
          _init_pool ;; ret tt
        else if contains "MySQL Connection not available" (exn_str e) then
          _init_pool ;; ret tt
        else ret tt) ;;
       ret None).

(** *** [Database.is_connected] *)

Definition is_connected : M sys bool :=
  try_except
    (conn <- get_connection ;;
     match conn with
     | Some c =>
         cursor <- call (EvCursor c false) (conn_cursor c false) ;;
         call (EvExecute cursor "SELECT 1" []) (cursor_execute cursor "SELECT 1" []) ;;
         call (EvFetchone cursor) (cursor_fetchone cursor) ;;
         call (EvCursorClose cursor) (cursor_close cursor) ;;
         call (EvConnClose c) (conn_close c) ;;
         ret true
     | None => ret false
     end)
    (fun _ => ret false).

(** *** The query executor *)

(** The local variables [conn] and [cursor] of [execute_select] and
    [execute_write]: both start as [None], are assigned inside the [try]
    block, and are read by the [except] and [finally] clauses. *)
Record frame : Type := mk_frame {
  f_conn : option conn_t;
  f_cursor : option cursor_t
}.

Definition lift {A} (m : M sys A) : M (sys * frame) A :=
  fun sf =>
    let (r, s') := m (fst sf) in (r, (s', snd sf)).

Definition locals : M (sys * frame) frame := fun sf => (Ok (snd sf), sf).

Definition set_conn (c : option conn_t) : M (sys * frame) unit :=
  fun sf => (Ok tt, (fst sf, {| f_conn := c; f_cursor := f_cursor (snd sf) |})).

Definition set_cursor (c : option cursor_t) : M (sys * frame) unit :=
  fun sf => (Ok tt, (fst sf, {| f_conn := f_conn (snd sf); f_cursor := c |})).

(** Runs a method body in a fresh frame ([conn = None], [cursor = None]). *)
Definition with_frame {A} (m : M (sys * frame) A) : M sys A :=
  fun s =>
    let (r, sf) := m (s, {| f_conn := None; f_cursor := None |}) in
    (r, fst sf).

(** [params or ()] *)
Definition params_or_empty (params : option (list value)) : list value :=
  match params with
  | Some ((_ :: _) as ps) => ps
  | _ => []
  end.

(** The [finally] clause shared by both executors. *)
Definition close_resources : M (sys * frame) unit :=
  try_except
    (f <- locals ;;
     (match f_cursor f with
      | Some cur => lift (call (EvCursorClose cur) (cursor_close cur))
      | None => ret tt
      end) ;;
     (match f_conn f with
      | Some c => lift (call (EvConnClose c) (conn_close c))
      | None => ret tt
      end))
    (fun _ => ret tt).

(** The fault classification of the [except Error] clauses. *)
Definition reinit_on_known_errors (e : exn) : M (sys * frame) unit :=
  if contains "bytearray index out of range" (exn_str e) then
    lift _init_pool ;; ret tt
  else if contains "MySQL Connection not available" (exn_str e) then
    lift _init_pool ;; ret tt
  else ret tt.

Definition execute_select (query : string) (params : option (list value))
  : M sys (option (list row)) :=
  with_frame
    (try_finally
       (try_except_Error
          (conn <- lift get_connection ;;
           set_conn conn ;;
           match conn with
           | None => ret None
           | Some c =>
               cursor <- lift (call (EvCursor c true) (conn_cursor c true)) ;;
               set_cursor (Some cursor) ;;
               lift (call (EvExecute cursor query (params_or_empty params))
                          (cursor_execute cursor query (params_or_empty params))) ;;
               result <- lift (call (EvFetchall cursor) (cursor_fetchall cursor)) ;;
               ret (Some result)
           end)
          (fun e => reinit_on_known_errors e ;; ret None)
          (fun e => ret None))
       close_resources).

(** The best-effort rollback of the [except] clauses of [execute_write]. *)
Definition rollback_quietly : M (sys * frame) unit :=
  f <- locals ;;
  match f_conn f with
  | Some c =>
      try_except (lift (call (EvRollback c) (conn_rollback c)))
                 (fun _ => ret tt)
  | None => ret tt
  end.

Definition execute_write (query : string) (params : option (list value))
  : M sys (option Z) :=
  with_frame
    (try_finally
       (try_except_Error
          (conn <- lift get_connection ;;
           set_conn conn ;;
           match conn with
           | None => ret None
           | Some c =>
               cursor <- lift (call (EvCursor c false) (conn_cursor c false)) ;;
               set_cursor (Some cursor) ;;
               lift (call (EvExecute cursor query (params_or_empty params))
                          (cursor_execute cursor query (params_or_empty params))) ;;
               lift (call (EvCommit c) (conn_commit c)) ;;
               affected <- lift (call (EvRowcount cursor) (cursor_rowcount cursor)) ;;
               ret (Some affected)
           end)
          (fun e => rollback_quietly ;; reinit_on_known_errors e ;; ret None)
          (fun e => rollback_quietly ;; ret None))
       close_resources).

End Program.

(** ** The SQL statements of the source, verbatim *)

Module SQL.

Definition create_projects : string :=
"
            CREATE TABLE IF NOT EXISTS projects (
                id INT AUTO_INCREMENT PRIMARY KEY,
                title VARCHAR(255) NOT NULL,
                category VARCHAR(100) DEFAULT 'website',
                description TEXT NOT NULL,
                technologies TEXT,
                client VARCHAR(255),
                project_date DATE,
                project_url VARCHAR(500),
                image_url VARCHAR(500),
                created_at TIMESTAMP DEFAULT CURRENT_TIMESTAMP,
                updated_at TIMESTAMP DEFAULT CURRENT_TIMESTAMP ON UPDATE CURRENT_TIMESTAMP,
                is_active BOOLEAN DEFAULT TRUE,
                INDEX idx_active (is_active),
                INDEX idx_created (created_at)
            ) ENGINE=InnoDB DEFAULT CHARSET=utf8mb4 COLLATE utf8mb4_unicode_ci
            ".

Definition create_project_requests : string :=
"
            CREATE TABLE IF NOT EXISTS project_requests (
                id INT AUTO_INCREMENT PRIMARY KEY,
                name VARCHAR(255) NOT NULL,
                email VARCHAR(255) NOT NULL,
                project_type VARCHAR(100) DEFAULT 'website',
                description TEXT NOT NULL,
                status VARCHAR(50) DEFAULT 'new',
                created_at TIMESTAMP DEFAULT CURRENT_TIMESTAMP,
                updated_at TIMESTAMP DEFAULT CURRENT_TIMESTAMP ON UPDATE CURRENT_TIMESTAMP,
                INDEX idx_status (status),
                INDEX idx_created (created_at)
            ) ENGINE=InnoDB DEFAULT CHARSET=utf8mb4 COLLATE utf8mb4_unicode_ci
            ".

Definition create_admin_users : string :=
"
            CREATE TABLE IF NOT EXISTS admin_users (
                id INT AUTO_INCREMENT PRIMARY KEY,
                username VARCHAR(100) UNIQUE NOT NULL,
                password_hash VARCHAR(255) NOT NULL,
                full_name VARCHAR(255),
                email VARCHAR(255),
                role VARCHAR(50) DEFAULT 'admin',
                last_login TIMESTAMP NULL,
                created_at TIMESTAMP DEFAULT CURRENT_TIMESTAMP,
                is_active BOOLEAN DEFAULT TRUE,
                INDEX idx_username (username),
                INDEX idx_active (is_active)
            ) ENGINE=InnoDB DEFAULT CHARSET=utf8mb4 COLLATE utf8mb4_unicode_ci
            ".

Definition create_settings : string :=
"
            CREATE TABLE IF NOT EXISTS settings (
                id INT AUTO_INCREMENT PRIMARY KEY,
                setting_key VARCHAR(100) UNIQUE NOT NULL,
                setting_value TEXT,
                updated_at TIMESTAMP DEFAULT CURRENT_TIMESTAMP ON UPDATE CURRENT_TIMESTAMP,
                INDEX idx_key (setting_key)
            ) ENGINE=InnoDB DEFAULT CHARSET=utf8mb4 COLLATE utf8mb4_unicode_ci
            ".

Definition select_table : string :=
"
                SELECT TABLE_NAME 
                FROM INFORMATION_SCHEMA.TABLES 
                WHERE TABLE_SCHEMA = %s AND TABLE_NAME = %s
                ".

Definition select_admin : string :=
"SELECT id, username, password_hash FROM admin_users WHERE username = 'admin'".

Definition insert_admin : string :=
"
                INSERT INTO admin_users (username, password_hash, full_name, email, role, is_active)
                VALUES (%s, %s, %s, %s, %s, %s)
                ".

Definition select_setting : string :=
"SELECT setting_value FROM settings WHERE setting_key = %s".

Definition insert_setting : string :=
"INSERT INTO settings (setting_key, setting_value) VALUES (%s, %s)".

Definition select_maintenance_mode : string :=
"SELECT setting_value FROM settings WHERE setting_key = 'maintenance_mode'".

Definition select_projects : string :=
"
        SELECT * FROM projects 
        WHERE is_active = TRUE 
        ORDER BY created_at DESC
        LIMIT 12
        ".

Definition insert_project_request : string :=
"
        INSERT INTO project_requests (name, email, project_type, description)
        VALUES (%s, %s, %s, %s)
        ".

End SQL.

(** [for x in xs: acc = body acc x], for loops that carry counters. *)
Fixpoint for_fold {S A B} (xs : list A) (acc : B) (body : B -> A -> M S B)
  : M S B :=
  match xs with
  | [] => ret acc
  | x :: xs' => acc' <- body acc x ;; for_fold xs' acc' body
  end.

(** ** Schema bootstrap and repair *)

Section Bootstrap.

Context {D : Driver}.

(** The [queries] list of [create_tables]. *)
Definition create_table_queries : list string :=
  [SQL.create_projects; SQL.create_project_requests;
   SQL.create_admin_users; SQL.create_settings].

(** *** [Database.create_tables] *)

(** The body of the loop; [counts] is the pair
    [(success_count, fail_count)]. *)
Definition create_table (counts : Z * Z) (query : string) : M sys (Z * Z) :=
  result <- execute_write query None ;;
  match result with
  | Some _ => ret (fst counts + 1, snd counts)
  | None => ret (fst counts, snd counts + 1)
  end.

Definition create_tables : M sys bool :=
  try_except
    (counts <- for_fold create_table_queries (0, 0) create_table ;;
     ret (fst counts >? 0))
    (fun _ => ret false).

Definition tables_to_check : list string :=
  ["admin_users"; "settings"; "projects"; "project_requests"].

Definition basic_settings : list (string * string) :=
  [("site_title", "HawkStudio");
   ("site_description", "هندسة الويب بمنهجية البرمجيات أولاً");
   ("admin_email", "admin@hawkstudio.com");
   ("contact_email", "hawkstudiio@gmail.com");
   ("contact_phone", "+961 71 235 414");
   ("contact_address", "لبنان - البقاع - تعلبايا");
   ("maintenance_mode", "disabled");
   ("maintenance_message",
    "نحن نقوم بإجراء بعض التحسينات على الموقع وسنعود قريباً.")].

(** [not rows] for the result of [execute_select]: true for [None] and for
    the empty list. *)
Definition no_rows (r : option (list row)) : bool :=
  match r with
  | Some (_ :: _) => false
  | _ => true
  end.

(** The parameter tuple of the default administrator's [INSERT]. *)
Definition admin_params (password_hash : string) : list value :=
  [VStr "admin"; VStr password_hash; VStr "المسؤول الرئيسي";
   VStr "admin@hawkstudio.com"; VStr "admin"; VBool true].

(** *** [Database.fix_database_issues] *)

(** The presence check of one table; its result is only printed. *)
Definition check_table (table : string) : M sys unit :=
  d <- self ;;
  execute_select SQL.select_table (Some [VStr (database d); VStr table]) ;;
  ret tt.

(** The default administrator is created when the [SELECT] finds none. *)
Definition ensure_admin : M sys unit :=
  admin_user <- execute_select SQL.select_admin None ;;
  if no_rows admin_user then
    password_hash <- call (EvHashpw "admin123") (bcrypt_hashpw "admin123") ;;
    execute_write SQL.insert_admin (Some (admin_params password_hash)) ;;
    ret tt
  else ret tt.

(** A default setting is inserted when the [SELECT] finds no such key. *)
Definition ensure_setting (kv : string * string) : M sys unit :=
  setting_exists <- execute_select SQL.select_setting (Some [VStr (fst kv)]) ;;
  if no_rows setting_exists then
    execute_write SQL.insert_setting (Some [VStr (fst kv); VStr (snd kv)]) ;;
    ret tt
  else ret tt.

Definition fix_database_issues : M sys bool :=
  alive <- is_connected ;;
  if negb alive then ret false
  else
    try_except
      (for_each tables_to_check check_table ;;
       ensure_admin ;;
       for_each basic_settings ensure_setting ;;
       ret true)
      (fun _ => ret false).

(** *** [Database.setup_database] *)
Definition setup_database : M sys bool :=
  try_except
    (alive <- is_connected ;;
     if negb alive then ret false
     else
       create_tables ;;
       fix_database_issues ;;
       ret true)
    (fun _ => ret false).

End Bootstrap.

(** ** HTTP handlers *)

(** The [data] member of the JSON envelope. *)
Inductive payload : Type :=
| DNone
| DRows (rows : list row).

(** The dictionary built by [create_response]; [error] is only present
    on a failure whose status is not 200. *)
Record envelope : Type := mk_envelope {
  success : bool;
  message : string;
  data : payload;
  error : option string
}.

Inductive response : Type :=
| Json (body : envelope) (status : Z)
| Redirect (location : string)
| SendFile (directory filename : string).

Definition create_response (d : payload) (msg : string) (status : Z)
    (ok : bool) : response :=
  Json {| success := ok; message := msg; data := d;
          error := if negb ok && negb (status =? 200) then Some msg else None |}
       status.

Section Handlers.

Context {D : Driver}.

(** [d[k]], raising [KeyError] on a missing key. *)
Definition dict_index {S} (d : row) (k : string) : M S value :=
  match dict_get d k with
  | Some v => ret v
  | None => raise {| exn_cls := OtherException; exn_str := "'" ++ k ++ "'" |}
  end.

(** *** [main_index] (route [/]) *)
Definition main_index : M sys response :=
  try_except
    (result <- execute_select SQL.select_maintenance_mode None ;;
     maintenance_mode <-
       match result with
       | Some ((_ :: _) as first :: _) =>
           v <- dict_index first "setting_value" ;;
           ret (py_or v (VStr "disabled"))
       | _ => ret (VStr "disabled")
       end ;;
     if eq_str maintenance_mode "enabled" then ret (Redirect "/maintenance")
     else ret (SendFile "." "hawkstudio.html"))
    (fun _ => ret (SendFile "." "hawkstudio.html")).

(** [hasattr(v, 'isoformat')] *)
Definition has_isoformat (v : value) : bool :=
  match v with VDate _ => true | _ => false end.

(** [v.isoformat()] *)
Definition isoformat (v : value) : value :=
  match v with VDate iso => VStr iso | _ => v end.

(** The date-conversion loop over one row. *)
Definition convert_dates (fields : list string) (r : row) : row :=
  fold_left
    (fun r f =>
       match dict_get r f with
       | Some v => if truthy v && has_isoformat v then dict_set r f (isoformat v)
                   else r
       | None => r
       end)
    fields r.

(** *** [get_projects] (route [/api/projects]) *)
Definition get_projects : M sys response :=
  try_except
    (projects <- execute_select SQL.select_projects None ;;
     match projects with
     | None => ret (create_response (DRows []) "لا توجد مشاريع حالياً" 200 true)
     | Some rows =>
         ret (create_response
                (DRows (map (convert_dates ["project_date"; "created_at"; "updated_at"]) rows))
                "تم جلب المشاريع بنجاح" 200 true)
     end)
    (fun _ => ret (create_response (DRows []) "لا توجد مشاريع حالياً" 200 true)).

(** The first required field that is missing or falsy in the request. *)
Fixpoint first_missing (fields : list string) (d : row) : option string :=
  match fields with
  | [] => None
  | f :: fields' =>
      match dict_get d f with
      | Some v => if truthy v then first_missing fields' d else Some f
      | None => Some f
      end
  end.

(** [data.get(k)] and [data.get(k, default)] as statement parameters. *)
Definition get_or (d : row) (k : string) (default : value) : value :=
  match dict_get d k with Some v => v | None => default end.

(** *** [create_project_request] (route [/api/project-request])

    [json] is the result of [request.get_json(silent=True)]. *)
Definition create_project_request (json : option row) : M sys response :=
  try_except
    (let d := match json with Some ((_ :: _) as d) => d | _ => [] end in
     match first_missing ["name"; "email"; "description"] d with
     | Some field =>
         ret (create_response DNone ("حقل " ++ field ++ " مطلوب") 400 false)
     | None =>
         result <- execute_write SQL.insert_project_request
                     (Some [get_or d "name" VNone; get_or d "email" VNone;
                            get_or d "project_type" (VStr "website");
                            get_or d "description" VNone]) ;;
         match result with
         | None =>
             ret (create_response DNone
                    "فشل في حفظ الطلب - قاعدة البيانات غير متاحة" 503 false)
         | Some _ => ret (create_response DNone "تم استلام طلبك بنجاح" 201 true)
         end
     end)
    (fun _ => ret (create_response DNone "فشل في حفظ الطلب" 503 false)).

(** *** [fix_database] (route [/api/admin/fix-database]) *)
Definition fix_database : M sys response :=
  try_except
    (ok <- setup_database ;;
     if ok then ret (create_response DNone "تم إصلاح قاعدة البيانات بنجاح" 200 true)
     else ret (create_response DNone "فشل في إصلاح قاعدة البيانات" 500 false))
    (fun e =>
       ret (create_response DNone
              ("حدث خطأ في إصلاح قاعدة البيانات: " ++ exn_str e) 500 false)).

End Handlers.

(** ** A fault-injected driver

    Every driver call either succeeds with a fixed answer or raises the
    exception planted for it.  The world is empty: the driver's behaviour
    does not change over time. *)

Module Faulty.

Record plan : Type := mk_plan {
  on_pool : option exn;
  on_get_connection : option exn;
  connected : bool;
  on_cursor : option exn;
  on_execute : string -> option exn;
  on_commit : option exn;
  on_rollback : option exn;
  on_cursor_close : option exn;
  on_conn_close : option exn;
  rows_fetched : list row;
  rows_affected : Z
}.

Definition answer {A} (fault : option exn) (a : A) : unit -> res A * unit :=
  fun w => match fault with
           | Some e => (Raise e, w)
           | None => (Ok a, w)
           end.

Definition driver (p : plan) : Driver :=
  {| world := unit;
     MySQLConnectionPool := fun _ => answer (on_pool p) 1%nat;
     pool_get_connection := fun _ => answer (on_get_connection p) 2%nat;
     conn_is_connected := fun _ => answer None (connected p);
     conn_cursor := fun _ _ => answer (on_cursor p) 3%nat;
     conn_commit := fun _ => answer (on_commit p) tt;
     conn_rollback := fun _ => answer (on_rollback p) tt;
     conn_close := fun _ => answer (on_conn_close p) tt;
     cursor_execute := fun _ q _ => answer (on_execute p q) tt;
     cursor_fetchone := fun _ => answer None (hd_error (rows_fetched p));
     cursor_fetchall := fun _ => answer None (rows_fetched p);
     cursor_rowcount := fun _ => answer None (rows_affected p);
     cursor_close := fun _ => answer (on_cursor_close p) tt;
     bcrypt_hashpw := fun pw => answer None ("$2b$12$" ++ pw) |}.

(** A server that answers every call. *)
Definition healthy : plan :=
  {| on_pool := None; on_get_connection := None; connected := true;
     on_cursor := None; on_execute := fun _ => None; on_commit := None;
     on_rollback := None; on_cursor_close := None; on_conn_close := None;
     rows_fetched := []; rows_affected := 0 |}.

Definition cannot_connect : exn :=
  {| exn_cls := MySQLError;
     exn_str := "2003: Can't connect to MySQL server on 'localhost:3306'" |}.

(** No server listening: building the pool fails. *)
Definition unreachable : plan :=
  {| on_pool := Some cannot_connect; on_get_connection := Some cannot_connect;
     connected := false;
     on_cursor := None; on_execute := fun _ => None; on_commit := None;
     on_rollback := None; on_cursor_close := None; on_conn_close := None;
     rows_fetched := []; rows_affected := 0 |}.

(** The state of a freshly constructed [Database] in front of plan [p]. *)
Definition start (p : plan) : @sys (driver p) :=
  @mk_sys (driver p) Database_default tt [].

End Faulty.

(** ** A MySQL server with a relational store

    The second driver keeps the four tables of the schema and answers the
    statements the bootstrap sequence issues.  It is reliable while it is
    [up]: the only errors it reports are the server's own (a missing table,
    a duplicate key, a statement it does not know).  While it is down every
    call that needs the network raises.

    Columns filled by the server clock ([created_at], [updated_at]) are
    not stored; [ORDER BY created_at DESC] reads the rows latest insertion
    first.  The [utf8mb4_unicode_ci] collation of the schema is
    approximated by folding ASCII case. *)

Module Server.

Record table : Type := mk_table {
  rows : list row;
  auto_increment : Z
}.

(** [None] is a table that does not exist. *)
Record store : Type := mk_store {
  projects : option table;
  project_requests : option table;
  admin_users : option table;
  settings : option table
}.

Definition empty_table : table := {| rows := []; auto_increment := 1 |}.

Definition empty_store : store :=
  {| projects := None; project_requests := None;
     admin_users := None; settings := None |}.

(** The statements the server understands. *)
Inductive statement : Type :=
| CreateProjects
| CreateProjectRequests
| CreateAdminUsers
| CreateSettings
| SelectOne
| SelectTable
| SelectAdmin
| InsertAdmin
| SelectSetting
| InsertSetting
| SelectMaintenanceMode
| SelectProjects
| InsertProjectRequest.

Definition known_statements : list (string * statement) :=
  [(SQL.create_projects, CreateProjects);
   (SQL.create_project_requests, CreateProjectRequests);
   (SQL.create_admin_users, CreateAdminUsers);
   (SQL.create_settings, CreateSettings);
   ("SELECT 1", SelectOne);
   (SQL.select_table, SelectTable);
   (SQL.select_admin, SelectAdmin);
   (SQL.insert_admin, InsertAdmin);
   (SQL.select_setting, SelectSetting);
   (SQL.insert_setting, InsertSetting);
   (SQL.select_maintenance_mode, SelectMaintenanceMode);
   (SQL.select_projects, SelectProjects);
   (SQL.insert_project_request, InsertProjectRequest)].

Fixpoint parse_in (known : list (string * statement)) (q : string)
  : option statement :=
  match known with
  | [] => None
  | (text, stmt) :: known' =>
      if (text =? q)%string then Some stmt else parse_in known' q
  end.

Definition parse : string -> option statement := parse_in known_statements.

Definition lower_ascii (c : ascii) : ascii :=
  let n := nat_of_ascii c in
  if (65 <=? n)%nat && (n <=? 90)%nat then ascii_of_nat (n + 32) else c.

Fixpoint lower (s : string) : string :=
  match s with
  | EmptyString => EmptyString
  | String c s' => String (lower_ascii c) (lower s')
  end.

(** Equality of two strings under the table collation. *)
Definition collate_eq (a b : string) : bool := (lower a =? lower b)%string.

(** [WHERE column = key] on one row. *)
Definition column_is (column key : string) (r : row) : bool :=
  match dict_get r column with
  | Some (VStr s) => collate_eq s key
  | _ => false
  end.

(** [WHERE is_active = TRUE] on one row. *)
Definition is_active (r : row) : bool :=
  match dict_get r "is_active" with
  | Some v => truthy v
  | None => false
  end.

(** [SELECT columns] on one row. *)
Definition project_columns (columns : list string) (r : row) : row :=
  map (fun c => (c, match dict_get r c with Some v => v | None => VNone end))
      columns.

Definition error (msg : string) : exn :=
  {| exn_cls := MySQLError; exn_str := msg |}.

Definition no_such_table (name : string) : exn :=
  error ("1146 (42S02): Table '" ++ name ++ "' doesn't exist").

Definition duplicate_entry (key : string) : exn :=
  error ("1062 (23000): Duplicate entry '" ++ key ++ "'").

Definition syntax_error : exn :=
  error "1064 (42000): You have an error in your SQL syntax".

(** [CREATE TABLE IF NOT EXISTS] *)
Definition create_if_missing (t : option table) : option table :=
  match t with
  | Some t => Some t
  | None => Some empty_table
  end.

(** [INSERT] of one row, numbered by the table's [AUTO_INCREMENT]. *)
Definition insert_row (r : row) (t : table) : table :=
  {| rows := rows t ++ [("id", VInt (auto_increment t)) :: r];
     auto_increment := auto_increment t + 1 |}.

(** The result set, the affected-row count and the store after a
    statement. *)
Definition outcome : Type := res (list row * Z) * store.

Definition set_projects (t : option table) (s : store) : store :=
  {| projects := t; project_requests := project_requests s;
     admin_users := admin_users s; settings := settings s |}.

Definition set_project_requests (t : option table) (s : store) : store :=
  {| projects := projects s; project_requests := t;
     admin_users := admin_users s; settings := settings s |}.

Definition set_admin_users (t : option table) (s : store) : store :=
  {| projects := projects s; project_requests := project_requests s;
     admin_users := t; settings := settings s |}.

Definition set_settings (t : option table) (s : store) : store :=
  {| projects := projects s; project_requests := project_requests s;
     admin_users := admin_users s; settings := t |}.

Definition table_named (name : string) (s : store) : option table :=
  if (name =? "projects")%string then projects s
  else if (name =? "project_requests")%string then project_requests s
  else if (name =? "admin_users")%string then admin_users s
  else if (name =? "settings")%string then settings s
  else None.

Definition select_setting_value (key : string) (s : store) : outcome :=
  match settings s with
  | None => (Raise (no_such_table "settings"), s)
  | Some t =>
      let found := map (project_columns ["setting_value"])
                       (filter (column_is "setting_key" key) (rows t)) in
      (Ok (found, Z.of_nat (List.length found)), s)
  end.

Definition run (stmt : statement) (params : list value) (s : store) : outcome :=
  match stmt, params with
  | CreateProjects, [] =>
      (Ok ([], 0), set_projects (create_if_missing (projects s)) s)
  | CreateProjectRequests, [] =>
      (Ok ([], 0), set_project_requests (create_if_missing (project_requests s)) s)
  | CreateAdminUsers, [] =>
      (Ok ([], 0), set_admin_users (create_if_missing (admin_users s)) s)
  | CreateSettings, [] =>
      (Ok ([], 0), set_settings (create_if_missing (settings s)) s)
  | SelectOne, [] => (Ok ([[("1", VInt 1)]], 1), s)
  | SelectTable, [VStr _; VStr name] =>
      match table_named name s with
      | Some _ => (Ok ([[("TABLE_NAME", VStr name)]], 1), s)
      | None => (Ok ([], 0), s)
      end
  | SelectAdmin, [] =>
      match admin_users s with
      | None => (Raise (no_such_table "admin_users"), s)
      | Some t =>
          let found := map (project_columns ["id"; "username"; "password_hash"])
                           (filter (column_is "username" "admin") (rows t)) in
          (Ok (found, Z.of_nat (List.length found)), s)
      end
  | InsertAdmin, [VStr username; password_hash; full_name; email; role; is_active] =>
      match admin_users s with
      | None => (Raise (no_such_table "admin_users"), s)
      | Some t =>
          if existsb (column_is "username" username) (rows t) then
            (Raise (duplicate_entry username), s)
          else
            (Ok ([], 1),
             set_admin_users
               (Some (insert_row [("username", VStr username);
                                  ("password_hash", password_hash);
                                  ("full_name", full_name);
                                  ("email", email);
                                  ("role", role);
                                  ("last_login", VNone);
                                  ("is_active", is_active)] t)) s)
      end
  | SelectSetting, [VStr key] => select_setting_value key s
  | SelectMaintenanceMode, [] => select_setting_value "maintenance_mode" s
  | InsertSetting, [VStr key; v] =>
      match settings s with
      | None => (Raise (no_such_table "settings"), s)
      | Some t =>
          if existsb (column_is "setting_key" key) (rows t) then
            (Raise (duplicate_entry key), s)
          else
            (Ok ([], 1),
             set_settings
               (Some (insert_row [("setting_key", VStr key);
                                  ("setting_value", v)] t)) s)
      end
  | SelectProjects, [] =>
      match projects s with
      | None => (Raise (no_such_table "projects"), s)
      | Some t =>
          let found := firstn 12 (filter is_active (rev (rows t))) in
          (Ok (found, Z.of_nat (List.length found)), s)
      end
  | InsertProjectRequest, [name; email; project_type; description] =>
      match project_requests s with
      | None => (Raise (no_such_table "project_requests"), s)
      | Some t =>
          match name, email, description with
          | VNone, _, _ | _, VNone, _ | _, _, VNone =>
              (Raise (error "1048 (23000): Column cannot be null"), s)
          | _, _, _ =>
              (Ok ([], 1),
               set_project_requests
                 (Some (insert_row [("name", name); ("email", email);
                                    ("project_type", project_type);
                                    ("description", description);
                                    ("status", VStr "new")] t)) s)
          end
      end
  | _, _ => (Raise syntax_error, s)
  end.

(** The server process: whether it is reachable, its store, the result of
    the last statement, the next handle to give out, and the number of
    salts [bcrypt] has drawn. *)
Record server : Type := mk_server {
  up : bool;
  st : store;
  last_rows : list row;
  last_count : Z;
  next_handle : nat;
  salts : nat
}.

Definition cannot_connect : exn :=
  error "2003: Can't connect to MySQL server on 'localhost:3306'".

Definition not_available : exn := error "MySQL Connection not available.".

(** Hands out a fresh handle when the server is reachable. *)
Definition open_handle (w : server) : res nat * server :=
  if up w then
    (Ok (next_handle w),
     {| up := up w; st := st w; last_rows := last_rows w;
        last_count := last_count w; next_handle := S (next_handle w);
        salts := salts w |})
  else (Raise cannot_connect, w).

Definition execute (q : string) (params : list value) (w : server)
  : res unit * server :=
  if up w then
    match parse q with
    | None => (Raise syntax_error, w)
    | Some stmt =>
        match run stmt params (st w) with
        | (Ok (found, count), s') =>
            (Ok tt,
             {| up := up w; st := s'; last_rows := found; last_count := count;
                next_handle := next_handle w; salts := salts w |})
        | (Raise e, _) => (Raise e, w)
        end
    end
  else (Raise not_available, w).

Definition fetchone (w : server) : res (option row) * server :=
  (Ok (hd_error (last_rows w)),
   {| up := up w; st := st w; last_rows := tl (last_rows w);
      last_count := last_count w; next_handle := next_handle w;
      salts := salts w |}).

Definition fetchall (w : server) : res (list row) * server :=
  (Ok (last_rows w),
   {| up := up w; st := st w; last_rows := [];
      last_count := last_count w; next_handle := next_handle w;
      salts := salts w |}).

Definition hashpw (pw : string) (w : server) : res string * server :=
  (Ok ("$2b$12$" ++ String (ascii_of_nat (97 + Nat.modulo (salts w) 26)) pw),
   {| up := up w; st := st w; last_rows := last_rows w;
      last_count := last_count w; next_handle := next_handle w;
      salts := S (salts w) |}).

Definition quiet (w : server) : res unit * server := (Ok tt, w).

Definition driver : Driver :=
  {| world := server;
     MySQLConnectionPool := fun _ => open_handle;
     pool_get_connection := fun _ => open_handle;
     conn_is_connected := fun _ w => (Ok (up w), w);
     conn_cursor := fun _ _ w =>
       if up w then open_handle w else (Raise not_available, w);
     conn_commit := fun _ => quiet;
     conn_rollback := fun _ => quiet;
     conn_close := fun _ => quiet;
     cursor_execute := fun _ => execute;
     cursor_fetchone := fun _ => fetchone;
     cursor_fetchall := fun _ => fetchall;
     cursor_rowcount := fun _ w => (Ok (last_count w), w);
     cursor_close := fun _ => quiet;
     bcrypt_hashpw := hashpw |}.

(** A reachable server holding store [s]. *)
Definition online (s : store) : server :=
  {| up := true; st := s; last_rows := []; last_count := 0;
     next_handle := 1; salts := 0 |}.

(** The same server, out of reach. *)
Definition offline (s : store) : server :=
  {| up := false; st := s; last_rows := []; last_count := 0;
     next_handle := 1; salts := 0 |}.

End Server.

(** ** The rest of the HTTP layer *)

(** *** [allowed_file] *)

Definition ALLOWED_EXTENSIONS : list string :=
  ["png"; "jpg"; "jpeg"; "gif"; "webp"].

(** [s.rsplit('.', 1)]: the text before and the text after the last ['.'],
    or [s] alone when it has none. *)
Fixpoint rsplit_dot (s : string) : list string :=
  match s with
  | EmptyString => [EmptyString]
  | String c s' =>
      match rsplit_dot s' with
      | [head; tail] => [String c head; tail]
      | _ => if Ascii.eqb c "." then [EmptyString; s'] else [String c s']
      end
  end.

(** [s.lower()].  Strings are UTF-8 bytes here and only ASCII letters are
    folded.  Python folds every cased character, which gives the same
    answer to the membership test of [allowed_file]: no character outside
    ASCII lowers to a letter of an allowed extension. *)
Definition py_lower : string -> string := Server.lower.

Definition allowed_file (filename : string) : bool :=
  contains "." filename &&
  match rsplit_dot filename with
  | [_; extension] =>
      existsb (String.eqb (py_lower extension)) ALLOWED_EXTENSIONS
  | _ => false
  end.

(** *** [token_required] *)

(** What [jwt.decode] does with a token at the time of the request: the
    claims it carries, or one of the two exceptions the decorator
    catches. *)
Inductive jwt_result : Type :=
| Decoded (data : row)
| ExpiredSignatureError
| InvalidTokenError.

(** The answer of a protected route: the decorator's own
    [jsonify({'success': False, 'error': error}), status], or what the
    wrapped handler returned. *)
Inductive guarded (A : Type) : Type :=
| Refused (error : string) (status : Z)
| Passed (a : A).
Arguments Refused {A} error status.
Arguments Passed {A} a.

(** [s.split(' ')]: a cut at every single space. *)
Fixpoint split_spaces (s : string) : list string :=
  match s with
  | EmptyString => [EmptyString]
  | String c s' =>
      if Ascii.eqb c " " then EmptyString :: split_spaces s'
      else match split_spaces s' with
           | word :: words => String c word :: words
           | [] => [String c EmptyString]
           end
  end.

(** The [token] variable of the decorator, from the [Authorization]
    header ([None] when the header is absent). *)
Definition bearer_token (auth_header : option string) : option string :=
  match auth_header with
  | Some h =>
      if negb (h =? "")%string && String.prefix "Bearer " h
      then nth_error (split_spaces h) 1
      else None
  | None => None
  end.

Section Auth.

Context {D : Driver}.

(** [app.config['JWT_SECRET']] and [jwt.decode(token, secret,
    algorithms=['HS256'])]. *)
Variable JWT_SECRET : string.
Variable jwt_decode : string -> string -> jwt_result.

(** The decorated function: [f] receives the decoded claims, which the
    source stores in [request.current_user]. *)
Definition token_required {A} (f : row -> M sys A)
    (auth_header : option string) : M sys (guarded A) :=
  match bearer_token auth_header with
  | Some (String _ _ as token) =>
      match jwt_decode token JWT_SECRET with
      | Decoded data => r <- f data ;; ret (Passed r)
      | ExpiredSignatureError => ret (Refused "انتهت صلاحية رمز التحقق" 401)
      | InvalidTokenError => ret (Refused "رمز تحقق غير صالح" 401)
      end
  | _ => ret (Refused "رمز التحقق مطلوب" 401)
  end.

End Auth.

(** *** Pages and public routes *)

(** The maintenance page, as the value it interpolates into its fixed
    HTML. *)
Inductive html : Type :=
| MaintenanceHtml (maintenance_message : value).

(** [create_response] is used at a second type of [data] by the routes
    that answer with one dictionary. *)
Record dict_envelope : Type := mk_dict_envelope {
  dict_success : bool;
  dict_message : string;
  dict_data : row;
  dict_error : option string
}.

Inductive dict_response : Type :=
| JsonDict (body : dict_envelope) (status : Z).

Definition create_dict_response (d : row) (msg : string) (status : Z)
    (ok : bool) : dict_response :=
  JsonDict {| dict_success := ok; dict_message := msg; dict_data := d;
              dict_error := if negb ok && negb (status =? 200)
                            then Some msg else None |}
           status.

Section MoreHandlers.

Context {D : Driver}.

Definition select_maintenance_message : string :=
  "SELECT setting_value FROM settings WHERE setting_key = 'maintenance_message'".

Definition default_maintenance_message : string :=
  "نحن نقوم بإجراء بعض التحسينات على الموقع وسنعود قريباً.".

(** *** [maintenance_page] (route [/maintenance]) *)
Definition maintenance_page : M sys html :=
  maintenance_message <-
    try_except
      (result <- execute_select select_maintenance_message None ;;
       match result with
       | Some ((_ :: _) as first :: _) =>
           v <- dict_index first "setting_value" ;;
           ret (py_or v (VStr default_maintenance_message))
       | _ => ret (VStr default_maintenance_message)
       end)
      (fun _ => ret (VStr default_maintenance_message)) ;;
  ret (MaintenanceHtml maintenance_message).

(** The dictionary of [get_site_status]. *)
Definition site_status (maintenance_mode : value) (connected : bool) : row :=
  [("maintenance_mode", maintenance_mode);
   ("site_title", VStr "HawkStudio");
   ("site_description", VStr "هندسة الويب بمنهجية البرمجيات أولاً");
   ("database_connected", VBool connected)].

(** *** [get_site_status] (route [/api/site-status]) *)
Definition get_site_status : M sys dict_response :=
  try_except
    (result <- execute_select SQL.select_maintenance_mode None ;;
     maintenance_mode <-
       match result with
       | Some ((_ :: _) as first :: _) =>
           v <- dict_index first "setting_value" ;;
           ret (py_or v (VStr "disabled"))
       | _ => ret (VStr "disabled")
       end ;;
     connected <- is_connected ;;
     ret (create_dict_response (site_status maintenance_mode connected)
            "تم جلب حالة الموقع بنجاح" 200 true))
    (fun _ =>
       ret (create_dict_response (site_status (VStr "disabled") false)
              "تم جلب حالة الموقع بنجاح" 200 true)).

(** *** Administration routes

    In the source each of them is wrapped by [token_required]. *)

Definition database_unavailable : string := "قاعدة البيانات غير متاحة".

(** [admin_get_projects] (GET [/api/admin/projects]) *)
Definition admin_get_projects : M sys response :=
  try_except
    (alive <- is_connected ;;
     if negb alive then
       ret (create_response (DRows []) database_unavailable 503 false)
     else
       projects <- execute_select
                     "SELECT * FROM projects ORDER BY created_at DESC" None ;;
       match projects with
       | None => ret (create_response (DRows []) "لا توجد مشاريع" 200 true)
       | Some rows =>
           ret (create_response
                  (DRows (map (convert_dates
                                 ["project_date"; "created_at"; "updated_at"])
                              rows))
                  "تم جلب المشاريع بنجاح" 200 true)
       end)
    (fun _ => ret (create_response (DRows []) "حدث خطأ" 500 false)).

(** [admin_get_project_requests] (GET [/api/admin/project-requests]) *)
Definition admin_get_project_requests : M sys response :=
  try_except
    (alive <- is_connected ;;
     if negb alive then
       ret (create_response (DRows []) database_unavailable 503 false)
     else
       requests <- execute_select
                     "SELECT * FROM project_requests ORDER BY created_at DESC"
                     None ;;
       match requests with
       | None => ret (create_response (DRows []) "لا توجد طلبات" 200 true)
       | Some rows =>
           ret (create_response
                  (DRows (map (convert_dates ["created_at"; "updated_at"]) rows))
                  "تم جلب الطلبات بنجاح" 200 true)
       end)
    (fun _ => ret (create_response (DRows []) "حدث خطأ" 500 false)).

(** [request.get_json(silent=True) or {}] *)
Definition json_or_empty (json : option row) : row :=
  match json with
  | Some ((_ :: _) as d) => d
  | _ => []
  end.

(** [not d.get(k)] *)
Definition missing (d : row) (k : string) : bool :=
  match dict_get d k with
  | Some v => negb (truthy v)
  | None => true
  end.

(** [admin_update_request_status]
    (PUT [/api/admin/project-requests/<int:request_id>]) *)
Definition admin_update_request_status (request_id : Z) (json : option row)
  : M sys response :=
  try_except
    (alive <- is_connected ;;
     if negb alive then ret (create_response DNone database_unavailable 503 false)
     else
       let d := json_or_empty json in
       if missing d "status" then
         ret (create_response DNone "حالة الطلب مطلوبة" 400 false)
       else
         status <- dict_index d "status" ;;
         result <- execute_write
                     "UPDATE project_requests SET status = %s WHERE id = %s"
                     (Some [status; VInt request_id]) ;;
         match result with
         | None => ret (create_response DNone "فشل في تحديث حالة الطلب" 500 false)
         | Some _ => ret (create_response DNone "تم تحديث حالة الطلب بنجاح" 200 true)
         end)
    (fun _ => ret (create_response DNone "حدث خطأ" 500 false)).

(** [admin_delete_project_request]
    (DELETE [/api/admin/project-requests/<int:request_id>]) *)
Definition admin_delete_project_request (request_id : Z) : M sys response :=
  try_except
    (alive <- is_connected ;;
     if negb alive then ret (create_response DNone database_unavailable 503 false)
     else
       result <- execute_write "DELETE FROM project_requests WHERE id = %s"
                   (Some [VInt request_id]) ;;
       match result with
       | None => ret (create_response DNone "فشل في حذف الطلب" 500 false)
       | Some _ => ret (create_response DNone "تم حذف الطلب بنجاح" 200 true)
       end)
    (fun _ => ret (create_response DNone "حدث خطأ" 500 false)).

Definition upsert_setting : string :=
"
            INSERT INTO settings (setting_key, setting_value) 
            VALUES (%s, %s) 
            ON DUPLICATE KEY UPDATE setting_value = VALUES(setting_value)
            ".

(** [admin_update_settings] (POST [/api/admin/settings]) *)
Definition admin_update_settings (json : option row) : M sys response :=
  try_except
    (alive <- is_connected ;;
     if negb alive then ret (create_response DNone database_unavailable 503 false)
     else
       match json_or_empty json with
       | [] => ret (create_response DNone "لا توجد بيانات للإعدادات" 400 false)
       | d =>
           for_each d
             (fun kv =>
                execute_write upsert_setting (Some [VStr (fst kv); snd kv]) ;;
                ret tt) ;;
           ret (create_response DNone "تم تحديث الإعدادات بنجاح" 200 true)
       end)
    (fun _ => ret (create_response DNone "حدث خطأ" 500 false)).

(** The default settings [admin_get_settings] answers with when the
    database is not connected. *)
Definition fallback_settings : row :=
  [("site_title", VStr "HawkStudio");
   ("site_description", VStr "هندسة الويب بمنهجية البرمجيات أولاً");
   ("maintenance_mode", VStr "disabled");
   ("maintenance_message", VStr default_maintenance_message)].

(** [settings[item['setting_key']] = item['setting_value']] over the
    rows; a key that is not a string cannot be told from another one here
    and is refused like a missing one. *)
Fixpoint collect_settings {S} (rows : list row) (settings : row) : M S row :=
  match rows with
  | [] => ret settings
  | item :: rows' =>
      key <- dict_index item "setting_key" ;;
      v <- dict_index item "setting_value" ;;
      match key with
      | VStr k => collect_settings rows' (dict_set settings k v)
      | _ => raise {| exn_cls := OtherException; exn_str := "setting_key" |}
      end
  end.

(** [admin_get_settings] (GET [/api/admin/settings]) *)
Definition admin_get_settings : M sys dict_response :=
  try_except
    (alive <- is_connected ;;
     if negb alive then
       ret (create_dict_response fallback_settings "تم جلب الإعدادات بنجاح" 200 true)
     else
       settings_result <- execute_select
                            "SELECT setting_key, setting_value FROM settings" None ;;
       settings <-
         match settings_result with
         | Some ((_ :: _) as rows) => collect_settings rows []
         | _ => ret []
         end ;;
       ret (create_dict_response settings "تم جلب الإعدادات بنجاح" 200 true))
    (fun _ => ret (create_dict_response [] "حدث خطأ" 500 false)).

(** The [fields_mapping] of [admin_update_project]: the column, and the
    key it is read from in the request. *)
Definition fields_mapping : list (string * string) :=
  [("title", "title"); ("category", "category");
   ("description", "description"); ("technologies", "technologies");
   ("client", "client"); ("project_date", "date");
   ("project_url", "url"); ("is_active", "is_active")].

(** The pairs of [fields_mapping] whose value [is not None]. *)
Fixpoint provided_fields (mapping : list (string * string)) (d : row)
  : list (string * value) :=
  match mapping with
  | [] => []
  | (field_name, key) :: mapping' =>
      match dict_get d key with
      | Some VNone | None => provided_fields mapping' d
      | Some field_value => (field_name, field_value) :: provided_fields mapping' d
      end
  end.

(** [request.get_json(silent=True) or request.form] *)
Definition json_or_form (json : option row) (form : row) : row :=
  match json with
  | Some ((_ :: _) as d) => d
  | _ => form
  end.

(** [f"UPDATE projects SET {', '.join(update_fields)} WHERE id = %s"] *)
Definition update_project_query (update_fields : list string) : string :=
  "UPDATE projects SET " ++ String.concat ", " update_fields ++ " WHERE id = %s".

(** [admin_update_project] (PUT [/api/admin/projects/<int:project_id>]);
    [json] is [request.get_json(silent=True)] and [form] is
    [request.form]. *)
Definition admin_update_project (project_id : Z) (json : option row)
    (form : row) : M sys response :=
  try_except
    (alive <- is_connected ;;
     if negb alive then ret (create_response DNone database_unavailable 503 false)
     else
       project <- execute_select "SELECT id FROM projects WHERE id = %s"
                    (Some [VInt project_id]) ;;
       if no_rows project then
         ret (create_response DNone "المشروع غير موجود" 404 false)
       else
         let d := json_or_form json form in
         let provided := provided_fields fields_mapping d in
         let update_fields := map (fun fv => fst fv ++ " = %s") provided in
         let params := map snd provided in
         match update_fields with
         | [] => ret (create_response DNone "لا توجد بيانات للتحديث" 400 false)
         | _ =>
             result <- execute_write (update_project_query update_fields)
                         (Some (params ++ [VInt project_id])%list) ;;
             match result with
             | None => ret (create_response DNone "فشل في تحديث المشروع" 500 false)
             | Some _ => ret (create_response DNone "تم تحديث المشروع بنجاح" 200 true)
             end
         end)
    (fun _ => ret (create_response DNone "حدث خطأ" 500 false)).

End MoreHandlers.

(** * Properties *)

(** ** What a method does to the state *)

(** [total m]: [m] returns a value from every state, it never raises. *)
Definition total {S A} (m : M S A) : Prop :=
  forall s, exists a, fst (m s) = Ok a.

(** [steps T m]: running [m] moves the state along the relation [T]. *)
Definition steps {S A} (T : S -> S -> Prop) (m : M S A) : Prop :=
  forall s, T s (snd (m s)).

Section Properties.

Context {D : Driver}.

(** A relation on [sys], seen from inside a frame. *)
Definition framed (T : sys -> sys -> Prop) : sys * frame -> sys * frame -> Prop :=
  fun sf sf' => T (fst sf) (fst sf').

(** [extends P s s']: the log of [s'] is the log of [s] followed by events
    that all satisfy [P]. *)
Definition extends (P : event -> Prop) (s s' : sys) : Prop :=
  exists evs : list event, trace s' = (trace s ++ evs)%list /\ Forall P evs.

(** Every driver call but the construction of a pool. *)
Definition no_pool_new (ev : event) : Prop :=
  match ev with
  | EvPoolNew _ => False
  | _ => True
  end.

(** From a state that has a pool, the same pool is still there afterwards
    and no pool construction was attempted in between. *)
Definition keeps_pool (s s' : sys) : Prop :=
  forall p, pool (db s) = Some p ->
    pool (db s') = Some p /\ extends no_pool_new s s'.

(** The driver calls a health probe may make: acquiring a connection and
    running [SELECT 1] on it. *)
Definition probe_only (ev : event) : Prop :=
  match ev with
  | EvPoolNew _ | EvPoolGet _ | EvIsConnected _ | EvCursor _ _
  | EvFetchone _ | EvCursorClose _ | EvConnClose _ => True
  | EvExecute _ q _ => q = "SELECT 1"
  | _ => False
  end.

(** [pool] and [_initialized] are set together, and a pool in place means
    the last initialization succeeded. *)
Definition inv (d : Database) : Prop :=
  match pool d with
  | Some _ => _initialized d = true /\ _connection_error d = false
  | None => _initialized d = false
  end.

(** The invariant is carried from [s] to [s']. *)
Definition keeps_inv (s s' : sys) : Prop := inv (db s) -> inv (db s').

(** The entry points of the driver. *)
Inductive driver_op : forall {A : Type}, (world -> res A * world) -> Prop :=
| op_pool cfg : driver_op (MySQLConnectionPool cfg)
| op_get p : driver_op (pool_get_connection p)
| op_is_connected c : driver_op (conn_is_connected c)
| op_cursor c b : driver_op (conn_cursor c b)
| op_commit c : driver_op (conn_commit c)
| op_rollback c : driver_op (conn_rollback c)
| op_conn_close c : driver_op (conn_close c)
| op_execute cur q ps : driver_op (cursor_execute cur q ps)
| op_fetchone cur : driver_op (cursor_fetchone cur)
| op_fetchall cur : driver_op (cursor_fetchall cur)
| op_rowcount cur : driver_op (cursor_rowcount cur)
| op_cursor_close cur : driver_op (cursor_close cur)
| op_hashpw pw : driver_op (bcrypt_hashpw pw).

(** [reachable R]: the worlds in [R] are those in which the server is
    reachable.  It stays reachable whatever the program calls, a pool can
    be built, and the pool hands out live connections. *)
Record reachable (R : world -> Prop) : Prop := {
  reach_closed :
    forall A (op : world -> res A * world),
      driver_op op -> forall w, R w -> R (snd (op w));
  reach_pool :
    forall cfg w, R w -> exists p, fst (MySQLConnectionPool cfg w) = Ok p;
  reach_get :
    forall p w, R w -> exists c, fst (pool_get_connection p w) = Ok c;
  reach_alive :
    forall c w, R w -> fst (conn_is_connected c w) = Ok true
}.

(** While the server is reachable, a [Database] that has a pool and an
    open gate is left as it is. *)
Definition serves (R : world -> Prop) (s s' : sys) : Prop :=
  R (wld s) -> has_pool (db s) = true -> ceiling_exceeded (db s) = false ->
  R (wld s') /\ db s' = db s.

(** The [Database] object after a successful [_init_pool]. *)
Definition rebuilt (p : pool_t) (d : Database) : Database :=
  set_error_count 0
    (set_connection_error false (set_initialized true (set_pool (Some p) d))).

End Properties.

(** The state after [n] calls of [get_connection]. *)
Fixpoint acquire_times {D : Driver} (n : nat) (s : sys) : sys :=
  match n with
  | O => s
  | S n' => acquire_times n' (snd (get_connection s))
  end.

(** ** Scenarios *)

(** A freshly constructed [Database] in front of a server that is down. *)
Definition fresh_offline : @sys Server.driver :=
  @mk_sys Server.driver Database_default (Server.offline Server.empty_store) [].

(** What [cursor.close()] raises while a result set is pending. *)
Definition unread_result : exn :=
  {| exn_cls := MySQLError; exn_str := "Unread result found" |}.

(** Every call succeeds except [cursor.close()]. *)
Definition stuck_cursor : Faulty.plan :=
  {| Faulty.on_pool := None; Faulty.on_get_connection := None;
     Faulty.connected := true; Faulty.on_cursor := None;
     Faulty.on_execute := fun _ => None; Faulty.on_commit := None;
     Faulty.on_rollback := None;
     Faulty.on_cursor_close := Some unread_result;
     Faulty.on_conn_close := None;
     Faulty.rows_fetched := []; Faulty.rows_affected := 1 |}.

(** The driver's error for a connection that has gone away. *)
Definition connection_lost : exn :=
  {| exn_cls := MySQLError; exn_str := "MySQL Connection not available." |}.

(** The probe statement succeeds, every other statement raises the
    driver's "connection not available" error. *)
Definition flaky_statements : Faulty.plan :=
  {| Faulty.on_pool := None; Faulty.on_get_connection := None;
     Faulty.connected := true; Faulty.on_cursor := None;
     Faulty.on_execute :=
       fun q => if (q =? "SELECT 1")%string then None else Some connection_lost;
     Faulty.on_commit := None; Faulty.on_rollback := None;
     Faulty.on_cursor_close := None; Faulty.on_conn_close := None;
     Faulty.rows_fetched := []; Faulty.rows_affected := 0 |}.

(** A fresh [Database] with no server to reach. *)
Definition fresh_unreachable : @sys (Faulty.driver Faulty.unreachable) :=
  Faulty.start Faulty.unreachable.

(** A project request with its three required fields. *)
Definition sample_request : row :=
  [("name", VStr "Rana"); ("email", VStr "rana@example.com");
   ("description", VStr "A portfolio site")].

(** A fresh [Database] in front of [flaky_statements]. *)
Definition fresh_flaky : @sys (Faulty.driver flaky_statements) :=
  Faulty.start flaky_statements.

(** A healthy server on which the statement matches no row. *)
Definition healthy_driver : Driver := Faulty.driver Faulty.healthy.

Definition fresh_healthy : @sys healthy_driver := Faulty.start Faulty.healthy.

(** The statement of [admin_update_request_status]. *)
Definition update_request_status : string :=
  "UPDATE project_requests SET status = %s WHERE id = %s".

(** A store whose only setting puts the site under maintenance. *)
Definition under_maintenance : Server.store :=
  Server.set_settings
    (Some {| Server.rows := [[("id", VInt 1);
                              ("setting_key", VStr "maintenance_mode");
                              ("setting_value", VStr "enabled")]];
             Server.auto_increment := 2 |})
    Server.empty_store.

(** The worlds in which the server is reachable. *)
Definition is_up (w : @world Server.driver) : Prop := Server.up w = true.

(** The server is restarted behind the program's back. *)
Definition restart (s : @sys Server.driver) : @sys Server.driver :=
  @mk_sys Server.driver (db s)
    {| Server.up := true; Server.st := Server.st (wld s);
       Server.last_rows := []; Server.last_count := 0;
       Server.next_handle := Server.next_handle (wld s);
       Server.salts := Server.salts (wld s) |}
    (trace s).

(** Four failed acquisitions, then the server is back. *)
Definition back_online : @sys Server.driver :=
  restart (acquire_times 4 fresh_offline).

(** ** The server's store under the bootstrap *)

Section ServerProperties.

Import Server.

#[local] Existing Instance Server.driver.

(** What the server answers to a statement, and the store it leaves. *)
Definition sql_result (q : string) (ps : list value) (sigma : store) : outcome :=
  match parse q with
  | None => (Raise syntax_error, sigma)
  | Some stmt =>
      match run stmt ps sigma with
      | (Ok x, sigma') => (Ok x, sigma')
      | (Raise e, _) => (Raise e, sigma)
      end
  end.

(** What [execute_select] returns for that answer. *)
Definition rows_of (o : outcome) : option (list row) :=
  match fst o with
  | Ok (found, _) => Some found
  | Raise _ => None
  end.

(** What [execute_write] returns for that answer. *)
Definition count_of (o : outcome) : option Z :=
  match fst o with
  | Ok (_, n) => Some n
  | Raise _ => None
  end.

(** The server is reachable, a pool is in place and the gate is open. *)
Definition serving (s : sys) : Prop :=
  up (wld s) = true /\ has_pool (db s) = true /\ ceiling_exceeded (db s) = false.

(** The store after the four statements of [create_tables]. *)
Definition create_all (sigma : store) : store :=
  fold_left (fun sigma q => snd (sql_result q [] sigma)) create_table_queries sigma.

(** The store after [ensure_admin], given the hash [bcrypt] returns. *)
Definition with_admin (password_hash : string) (sigma : store) : store :=
  if no_rows (rows_of (sql_result SQL.select_admin [] sigma)) then
    snd (sql_result SQL.insert_admin (admin_params password_hash) sigma)
  else sigma.

(** The store after [ensure_setting]. *)
Definition with_setting (sigma : store) (kv : string * string) : store :=
  if no_rows (rows_of (sql_result SQL.select_setting [VStr (fst kv)] sigma)) then
    snd (sql_result SQL.insert_setting [VStr (fst kv); VStr (snd kv)] sigma)
  else sigma.

(** The store after the repair pass. *)
Definition seeded (password_hash : string) (sigma : store) : store :=
  fold_left with_setting basic_settings (with_admin password_hash sigma).

(** The rows the administrator [SELECT] and the [UNIQUE] key look at. *)
Definition is_admin : row -> bool := column_is "username" "admin".

Definition has_key (key : string) : row -> bool := column_is "setting_key" key.

(** All four tables exist, the default administrator is there, and so is
    every default setting. *)
Definition bootstrapped (sigma : store) : Prop :=
  exists tp tr ta ts,
    sigma = {| projects := Some tp; project_requests := Some tr;
               admin_users := Some ta; settings := Some ts |} /\
    existsb is_admin (rows ta) = true /\
    forall kv, In kv basic_settings -> existsb (has_key (fst kv)) (rows ts) = true.

(** The states in which [get_connection] gives up before any driver
    call: the lazy initialization is not due, and either the gate is
    closed or there is no pool and the counter forbids a retry. *)
Definition blocked (d : Database) : bool :=
  (has_pool d || _initialized d) &&
  (ceiling_exceeded d ||
   negb (has_pool d) && negb (_error_count d <=? _max_retries d)).

End ServerProperties.

(** The number of rows of a table that satisfy [P]. *)
Definition count_rows (P : row -> bool) (t : option Server.table) : nat :=
  match t with
  | Some t => List.length (filter P (Server.rows t))
  | None => 0%nat
  end.

(** ** Sequences of calls on the [Database] object *)

(** The methods of [Database], with their arguments. *)
Inductive method : Type :=
| Call_init_pool
| Call_get_connection
| Call_is_connected
| Call_execute_select (query : string) (params : option (list value))
| Call_execute_write (query : string) (params : option (list value))
| Call_create_tables
| Call_fix_database_issues
| Call_setup_database.

(** The state after one call; the returned value is dropped. *)
Definition call_method {D : Driver} (m : method) (s : sys) : sys :=
  match m with
  | Call_init_pool => snd (_init_pool s)
  | Call_get_connection => snd (get_connection s)
  | Call_is_connected => snd (is_connected s)
  | Call_execute_select q ps => snd (execute_select q ps s)
  | Call_execute_write q ps => snd (execute_write q ps s)
  | Call_create_tables => snd (create_tables s)
  | Call_fix_database_issues => snd (fix_database_issues s)
  | Call_setup_database => snd (setup_database s)
  end.

(** The state after a sequence of calls. *)
Definition call_methods {D : Driver} (ms : list method) (s : sys) : sys :=
  fold_left (fun s m => call_method m s) ms s.

(** The first call of [get_connection] that reaches the driver: building
    the pool when there is none, asking the pool otherwise. *)
Definition first_driver_call (d : Database) : event :=
  match pool d with
  | Some p => EvPoolGet p
  | None => EvPoolNew (pool_config_of d)
  end.

(** ** Statements built at run time *)

(** The number of occurrences of a character in a string; with ["%"] it
    counts the [%s] placeholders of a statement whose column names have
    none. *)
Fixpoint count_char (c : ascii) (s : string) : nat :=
  match s with
  | EmptyString => 0%nat
  | String c' s' => ((if Ascii.eqb c' c then 1 else 0) + count_char c s')%nat
  end.

(** ** What a call may send to the driver *)

(** The driver calls [execute_select] may make for one statement:
    acquiring a connection, a cursor, the statement itself with its
    parameters, [fetchall], and the two [close()]. *)
Definition select_event (query : string) (ps : list value) (ev : event) : Prop :=
  match ev with
  | EvPoolNew _ | EvPoolGet _ | EvIsConnected _ | EvCursor _ _
  | EvFetchall _ | EvCursorClose _ | EvConnClose _ => True
  | EvExecute _ q ps' => q = query /\ ps' = ps
  | _ => False
  end.

(** The driver calls [execute_write] may make for one statement. *)
Definition write_event (query : string) (ps : list value) (ev : event) : Prop :=
  match ev with
  | EvPoolNew _ | EvPoolGet _ | EvIsConnected _ | EvCursor _ _
  | EvCommit _ | EvRollback _ | EvRowcount _
  | EvCursorClose _ | EvConnClose _ => True
  | EvExecute _ q ps' => q = query /\ ps' = ps
  | _ => False
  end.

(** The statements of the routes that only read. *)
Definition read_statements : list string :=
  ["SELECT 1"; SQL.select_maintenance_mode; select_maintenance_message;
   SQL.select_projects;
   "SELECT * FROM projects ORDER BY created_at DESC";
   "SELECT * FROM project_requests ORDER BY created_at DESC";
   "SELECT setting_key, setting_value FROM settings"].

(** A driver call that changes nothing in the database: no commit, no
    rollback, and no statement other than the reads above. *)
Definition read_only (ev : event) : Prop :=
  match ev with
  | EvCommit _ | EvRollback _ | EvRowcount _ | EvHashpw _ => False
  | EvExecute _ q _ => In q read_statements
  | _ => True
  end.

(** The statements of the bootstrap sequence. *)
Definition bootstrap_statements : list string :=
  ["SELECT 1"; SQL.create_projects; SQL.create_project_requests;
   SQL.create_admin_users; SQL.create_settings;
   SQL.select_table; SQL.select_admin; SQL.insert_admin;
   SQL.select_setting; SQL.insert_setting].

(** A driver call of the bootstrap: any statement it sends is one of the
    above, and the only password it hashes is the default one. *)
Definition bootstrap_event (ev : event) : Prop :=
  match ev with
  | EvExecute _ q _ => In q bootstrap_statements
  | EvHashpw pw => pw = "admin123"%string
  | _ => True
  end.

(** ** More scenarios *)

(** A healthy server after the pool has been built. *)
Definition pooled_healthy : @sys healthy_driver :=
  snd (@_init_pool healthy_driver fresh_healthy).

(** Calls made on the object afterwards. *)
Definition sample_calls : list method :=
  [Call_execute_write update_request_status (Some [VStr "done"; VInt 42]);
   Call_is_connected; Call_setup_database; Call_get_connection].

(** Every statement raises, the probe's included. *)
Definition dead_statements : Faulty.plan :=
  {| Faulty.on_pool := None; Faulty.on_get_connection := None;
     Faulty.connected := true; Faulty.on_cursor := None;
     Faulty.on_execute := fun _ => Some connection_lost;
     Faulty.on_commit := None; Faulty.on_rollback := None;
     Faulty.on_cursor_close := None; Faulty.on_conn_close := None;
     Faulty.rows_fetched := []; Faulty.rows_affected := 0 |}.

Definition fresh_dead : @sys (Faulty.driver dead_statements) :=
  Faulty.start dead_statements.

(** The pool hands out connections that report themselves disconnected. *)
Definition stale_connections : Faulty.plan :=
  {| Faulty.on_pool := None; Faulty.on_get_connection := None;
     Faulty.connected := false; Faulty.on_cursor := None;
     Faulty.on_execute := fun _ => None;
     Faulty.on_commit := None; Faulty.on_rollback := None;
     Faulty.on_cursor_close := None; Faulty.on_conn_close := None;
     Faulty.rows_fetched := []; Faulty.rows_affected := 0 |}.

Definition pooled_stale : @sys (Faulty.driver stale_connections) :=
  snd (@_init_pool (Faulty.driver stale_connections)
         (Faulty.start stale_connections)).

(** A fresh [Database] in front of a running server with an empty
    database. *)
Definition fresh_online : @sys Server.driver :=
  @mk_sys Server.driver Database_default (Server.online Server.empty_store) [].

(** A settings form with one entry. *)
Definition sample_settings : row := [("site_title", VStr "Hawk")].


(** The row [create_project_request] asks the server to store. *)
Definition request_row (d : row) : row :=
  [("name", get_or d "name" VNone); ("email", get_or d "email" VNone);
   ("project_type", get_or d "project_type" (VStr "website"));
   ("description", get_or d "description" VNone);
   ("status", VStr "new")].

(** The running server after the bootstrap of an empty database. *)
Definition bootstrapped_online : @sys Server.driver :=
  snd (@setup_database Server.driver fresh_online).

(** * Verification *)

(** ** Reasoning about the monad *)

Section MonadRules.

Context {S : Type}.

Lemma total_ret {A} (a : A) : total (@ret S A a).
Proof. intros s. exists a. reflexivity. Qed.

Lemma total_bind {A B} (m : M S A) (k : A -> M S B) :
  total m -> (forall a, total (k a)) -> total (bind m k).
Proof.
  intros Hm Hk s. unfold bind.
  destruct (Hm s) as [a Ha]. destruct (m s) as [r s']. simpl in Ha. subst r.
  apply Hk.
Qed.

Lemma total_try_except {A} (body : M S A) (handler : exn -> M S A) :
  (forall e, total (handler e)) -> total (try_except body handler).
Proof.
  intros Hh s. unfold try_except.
  destruct (body s) as [[a | e] s'].
  - exists a. reflexivity.
  - apply Hh.
Qed.

Lemma total_try_except_Error {A} (body : M S A) (h1 h2 : exn -> M S A) :
  (forall e, total (h1 e)) -> (forall e, total (h2 e)) ->
  total (try_except_Error body h1 h2).
Proof.
  intros H1 H2. apply total_try_except. intros e.
  destruct (exn_cls e); auto.
Qed.

Lemma total_try_finally {A} (body : M S A) (fin : M S unit) :
  total body -> total fin -> total (try_finally body fin).
Proof.
  intros Hb Hf s. unfold try_finally.
  destruct (Hb s) as [a Ha]. destruct (body s) as [r s1]. simpl in Ha. subst r.
  destruct (Hf s1) as [u Hu]. destruct (fin s1) as [rf s2]. simpl in Hu. subst rf.
  exists a. reflexivity.
Qed.

Lemma total_for_each {A} (xs : list A) (body : A -> M S unit) :
  (forall x, total (body x)) -> total (for_each xs body).
Proof.
  intros Hb. induction xs as [| x xs IH]; simpl.
  - apply total_ret.
  - apply total_bind; auto.
Qed.

Lemma total_for_fold {A B} (xs : list A) (body : B -> A -> M S B) :
  (forall acc x, total (body acc x)) -> forall acc, total (for_fold xs acc body).
Proof.
  intros Hb. induction xs as [| x xs IH]; intros acc; simpl.
  - apply total_ret.
  - apply total_bind; auto.
Qed.

(** The rules for [steps] hold for every reflexive and transitive [T]. *)
Context (T : S -> S -> Prop) `{!PreOrder T}.

Lemma steps_ret {A} (a : A) : steps T (@ret S A a).
Proof. intros s. reflexivity. Qed.

Lemma steps_raise {A} (e : exn) : steps T (@raise S A e).
Proof. intros s. reflexivity. Qed.

Lemma steps_bind {A B} (m : M S A) (k : A -> M S B) :
  steps T m -> (forall a, steps T (k a)) -> steps T (bind m k).
Proof.
  intros Hm Hk s. unfold bind.
  specialize (Hm s). destruct (m s) as [[a | e] s']; simpl in *.
  - etransitivity; [exact Hm | apply Hk].
  - exact Hm.
Qed.

Lemma steps_try_except {A} (body : M S A) (handler : exn -> M S A) :
  steps T body -> (forall e, steps T (handler e)) ->
  steps T (try_except body handler).
Proof.
  intros Hb Hh s. unfold try_except.
  specialize (Hb s). destruct (body s) as [[a | e] s']; simpl in *.
  - exact Hb.
  - etransitivity; [exact Hb | apply Hh].
Qed.

Lemma steps_try_except_Error {A} (body : M S A) (h1 h2 : exn -> M S A) :
  steps T body -> (forall e, steps T (h1 e)) -> (forall e, steps T (h2 e)) ->
  steps T (try_except_Error body h1 h2).
Proof.
  intros Hb H1 H2. apply steps_try_except; [exact Hb |].
  intros e. destruct (exn_cls e); auto.
Qed.

Lemma steps_try_finally {A} (body : M S A) (fin : M S unit) :
  steps T body -> steps T fin -> steps T (try_finally body fin).
Proof.
  intros Hb Hf s. unfold try_finally.
  specialize (Hb s). destruct (body s) as [r s1]. simpl in Hb.
  specialize (Hf s1). destruct (fin s1) as [[u | e] s2]; simpl in *;
    etransitivity; eauto.
Qed.

Lemma steps_for_each {A} (xs : list A) (body : A -> M S unit) :
  (forall x, steps T (body x)) -> steps T (for_each xs body).
Proof.
  intros Hb. induction xs as [| x xs IH]; simpl.
  - apply steps_ret.
  - apply steps_bind; auto.
Qed.

Lemma steps_for_fold {A B} (xs : list A) (body : B -> A -> M S B) :
  (forall acc x, steps T (body acc x)) ->
  forall acc, steps T (for_fold xs acc body).
Proof.
  intros Hb. induction xs as [| x xs IH]; intros acc; simpl.
  - apply steps_ret.
  - apply steps_bind; auto.
Qed.

End MonadRules.

(** ** Frames *)

Section FrameRules.

Context {D : Driver}.

Lemma total_self : total self.
Proof. intros s. eexists. reflexivity. Qed.

Lemma total_update f : total (update f).
Proof. intros s. eexists. reflexivity. Qed.

Lemma total_lift {A} (m : M sys A) : total m -> total (lift m).
Proof.
  intros Hm [s f]. unfold lift. simpl.
  destruct (Hm s) as [a Ha]. destruct (m s) as [r s']. simpl in Ha. subst r.
  exists a. reflexivity.
Qed.

Lemma total_with_frame {A} (m : M (sys * frame) A) :
  total m -> total (with_frame m).
Proof.
  intros Hm s. unfold with_frame.
  destruct (Hm (s, {| f_conn := None; f_cursor := None |})) as [a Ha].
  destruct (m _) as [r sf]. simpl in Ha. subst r.
  exists a. reflexivity.
Qed.

Lemma total_locals : total locals.
Proof. intros s. eexists. reflexivity. Qed.

Lemma total_set_conn c : total (set_conn c).
Proof. intros s. eexists. reflexivity. Qed.

Lemma total_set_cursor c : total (set_cursor c).
Proof. intros s. eexists. reflexivity. Qed.

Context (T : sys -> sys -> Prop) `{!PreOrder T}.

Lemma framed_preorder : PreOrder (framed T).
Proof.
  split.
  - intros sf. unfold framed. reflexivity.
  - intros a b c Hab Hbc. unfold framed in *. etransitivity; eassumption.
Qed.

Lemma steps_self : steps T self.
Proof. intros s. reflexivity. Qed.

Lemma steps_lift {A} (m : M sys A) : steps T m -> steps (framed T) (lift m).
Proof.
  intros Hm [s f]. unfold lift, framed. simpl.
  specialize (Hm s). destruct (m s) as [r s']. exact Hm.
Qed.

Lemma steps_with_frame {A} (m : M (sys * frame) A) :
  steps (framed T) m -> steps T (with_frame m).
Proof.
  intros Hm s. unfold with_frame.
  specialize (Hm (s, {| f_conn := None; f_cursor := None |})).
  destruct (m _) as [r sf]. exact Hm.
Qed.

Lemma steps_locals : steps (framed T) locals.
Proof. intros sf. unfold framed. reflexivity. Qed.

Lemma steps_set_conn c : steps (framed T) (set_conn c).
Proof. intros sf. unfold framed. reflexivity. Qed.

Lemma steps_set_cursor c : steps (framed T) (set_cursor c).
Proof. intros sf. unfold framed. reflexivity. Qed.

End FrameRules.

#[global] Existing Instance framed_preorder.

(** ** No method of [Database] raises *)

Create HintDb total discriminated.

Ltac total_step :=
  match goal with
  | |- total (create_table _ _) => unfold create_table
  | |- total (check_table _) => unfold check_table
  | |- total ensure_admin => unfold ensure_admin
  | |- total (ensure_setting _) => unfold ensure_setting
  | |- total (ret _) => apply total_ret
  | |- total self => apply total_self
  | |- total (update _) => apply total_update
  | |- total locals => apply total_locals
  | |- total (set_conn _) => apply total_set_conn
  | |- total (set_cursor _) => apply total_set_cursor
  | |- total (try_except _ _) => apply total_try_except; intros
  | |- total (try_except_Error _ _ _) => apply total_try_except_Error; intros
  | |- total (try_finally _ _) => apply total_try_finally
  | |- total (with_frame _) => apply total_with_frame
  | |- total (lift _) => apply total_lift
  | |- total (for_each _ _) => apply total_for_each; intros
  | |- total (for_fold _ _ _) => apply total_for_fold; intros
  | |- total (bind _ _) => apply total_bind; [| intros]
  | |- total (match ?x with _ => _ end) => destruct x
  | |- total _ => solve [auto with total]
  end.

Ltac total_tac := repeat total_step.

Section Totality.

Context {D : Driver}.

Lemma _init_pool_total : total _init_pool.
Proof. unfold _init_pool. total_tac. Qed.
Hint Resolve _init_pool_total : total.

Lemma get_connection_total : total get_connection.
Proof. unfold get_connection. total_tac. Qed.
Hint Resolve get_connection_total : total.

Lemma is_connected_total : total is_connected.
Proof. unfold is_connected. total_tac. Qed.
Hint Resolve is_connected_total : total.

Lemma close_resources_total : total close_resources.
Proof. unfold close_resources. total_tac. Qed.
Hint Resolve close_resources_total : total.

Lemma reinit_on_known_errors_total e : total (reinit_on_known_errors e).
Proof. unfold reinit_on_known_errors. total_tac. Qed.
Hint Resolve reinit_on_known_errors_total : total.

Lemma rollback_quietly_total : total rollback_quietly.
Proof. unfold rollback_quietly. total_tac. Qed.
Hint Resolve rollback_quietly_total : total.

(** [execute_select] returns rows or [None]; no exception leaves it. *)
Lemma execute_select_total query params : total (execute_select query params).
Proof. unfold execute_select. total_tac. Qed.
Hint Resolve execute_select_total : total.

(** [execute_write] returns a count or [None]; no exception leaves it. *)
Lemma execute_write_total query params : total (execute_write query params).
Proof. unfold execute_write. total_tac. Qed.
Hint Resolve execute_write_total : total.

Lemma create_tables_total : total create_tables.
Proof. unfold create_tables. total_tac. Qed.
Hint Resolve create_tables_total : total.

Lemma fix_database_issues_total : total fix_database_issues.
Proof. unfold fix_database_issues. total_tac. Qed.
Hint Resolve fix_database_issues_total : total.

Lemma setup_database_total : total setup_database.
Proof. unfold setup_database. total_tac. Qed.





End Totality.

(** Case analysis on the innermost scrutinee of the goal. *)
Ltac break_match :=
  match goal with
  | |- context [match ?x with _ => _ end] =>
      lazymatch x with
      | context [match _ with _ => _ end] => fail
      | _ => destruct x eqn:?
      end
  end.


(** ** What the log of driver calls can gain *)

Section Log.

Context {D : Driver}.

Lemma extends_preorder P : PreOrder (extends P).
Proof.
  split.
  - intros s. exists []. rewrite app_nil_r. auto.
  - intros a b c [e1 [H1 F1]] [e2 [H2 F2]]. exists (e1 ++ e2)%list. split.
    + rewrite H2, H1, app_assoc. reflexivity.
    + apply Forall_app. auto.
Qed.

Lemma extends_call {A} P ev (op : world -> res A * world) :
  P ev -> steps (extends P) (call ev op).
Proof.
  intros HP s. unfold call. destruct (op (wld s)) as [r w]. simpl.
  exists [ev]. auto.
Qed.

Lemma extends_update P f : steps (extends P) (update f).
Proof. intros s. exists []. simpl. rewrite app_nil_r. auto. Qed.

End Log.

#[global] Existing Instance extends_preorder.

Create HintDb steps discriminated.

Ltac steps_step :=
  match goal with
  | |- steps _ (create_table _ _) => unfold create_table
  | |- steps _ (check_table _) => unfold check_table
  | |- steps _ ensure_admin => unfold ensure_admin
  | |- steps _ (ensure_setting _) => unfold ensure_setting
  | |- PreOrder _ => typeclasses eauto
  | |- forall _, _ => intro
  | |- steps _ (ret _) => apply steps_ret
  | |- steps _ (raise _) => apply steps_raise
  | |- steps _ self => apply steps_self
  | |- steps _ locals => apply steps_locals
  | |- steps _ (set_conn _) => apply steps_set_conn
  | |- steps _ (set_cursor _) => apply steps_set_cursor
  | |- steps _ (try_except _ _) => apply steps_try_except
  | |- steps _ (try_except_Error _ _ _) => apply steps_try_except_Error
  | |- steps _ (try_finally _ _) => apply steps_try_finally
  | |- steps _ (with_frame _) => apply steps_with_frame
  | |- steps _ (lift _) => apply steps_lift
  | |- steps _ (for_each _ _) => apply steps_for_each
  | |- steps _ (for_fold _ _ _) => apply steps_for_fold
  | |- steps _ (bind _ _) => apply steps_bind
  | |- steps _ (match ?x with _ => _ end) => destruct x
  | |- steps _ _ => solve [auto with steps]
  end.

Ltac steps_tac := cbv zeta; repeat steps_step.


(** ** The pool, once built, is never rebuilt *)

Section PoolKept.

Context {D : Driver}.

Lemma keeps_pool_preorder : PreOrder keeps_pool.
Proof.
  split.
  - intros s p Hp. split; [assumption | reflexivity].
  - intros a b c Hab Hbc p Hp.
    destruct (Hab p Hp) as [Hb Eab]. destruct (Hbc p Hb) as [Hc Ebc].
    split; [assumption | etransitivity; eassumption].
Qed.
#[local] Existing Instance keeps_pool_preorder.

Lemma keeps_pool_call {A} ev (op : world -> res A * world) :
  no_pool_new ev -> steps keeps_pool (call ev op).
Proof.
  intros Hev s p Hp. split.
  - unfold call. destruct (op (wld s)). exact Hp.
  - apply extends_call. exact Hev.
Qed.

Lemma keeps_pool_update f :
  (forall d, pool (f d) = pool d) -> steps keeps_pool (update f).
Proof.
  intros Hf s p Hp. split.
  - simpl. rewrite Hf. exact Hp.
  - apply extends_update.
Qed.

Hint Extern 1 (steps keeps_pool (call _ _)) =>
  (apply keeps_pool_call; exact I) : steps.
Hint Extern 1 (steps keeps_pool (update _)) =>
  (apply keeps_pool_update; reflexivity) : steps.

(** With a pool in place [_init_pool] returns at its first line. *)
Lemma _init_pool_keeps_pool : steps keeps_pool _init_pool.
Proof.
  intros s p Hp.
  unfold _init_pool, try_except, bind, self, has_pool. simpl.
  rewrite Hp. simpl. split; [assumption | reflexivity].
Qed.
Hint Resolve _init_pool_keeps_pool : steps.

Lemma get_connection_keeps_pool : steps keeps_pool get_connection.
Proof. unfold get_connection. steps_tac. Qed.
Hint Resolve get_connection_keeps_pool : steps.

Lemma execute_select_keeps_pool query params :
  steps keeps_pool (execute_select query params).
Proof.
  unfold execute_select, close_resources, reinit_on_known_errors. steps_tac.
Qed.

Lemma execute_write_keeps_pool query params :
  steps keeps_pool (execute_write query params).
Proof.
  unfold execute_write, close_resources, reinit_on_known_errors,
    rollback_quietly.
  steps_tac.
Qed.

End PoolKept.

(** ** The health probe only probes *)

Section Probe.

Context {D : Driver}.

Hint Extern 1 (steps (extends _) (call _ _)) => (apply extends_call; simpl; auto) : steps.
Hint Resolve extends_update : steps.

Lemma _init_pool_probe_only : steps (extends probe_only) _init_pool.
Proof. unfold _init_pool. steps_tac. Qed.
Hint Resolve _init_pool_probe_only : steps.

Lemma get_connection_probe_only : steps (extends probe_only) get_connection.
Proof. unfold get_connection. steps_tac. Qed.
Hint Resolve get_connection_probe_only : steps.

Lemma is_connected_probe_only : steps (extends probe_only) is_connected.
Proof. unfold is_connected. steps_tac. Qed.

End Probe.

(** ** The invariant of the [Database] object *)

Section Invariant.

Context {D : Driver}.

Lemma inv_init h u pw n prt : inv (Database_init h u pw n prt).
Proof. reflexivity. Qed.

Lemma keeps_inv_preorder : PreOrder keeps_inv.
Proof.
  split.
  - intros s H. exact H.
  - intros a b c Hab Hbc H. auto.
Qed.
#[local] Existing Instance keeps_inv_preorder.

Lemma keeps_inv_call {A} ev (op : world -> res A * world) :
  steps keeps_inv (call ev op).
Proof. intros s H. unfold call. destruct (op (wld s)). exact H. Qed.

Lemma keeps_inv_error_count f :
  steps keeps_inv (update (fun d => set_error_count (f d) d)).
Proof. intros s H. exact H. Qed.

Hint Resolve keeps_inv_call keeps_inv_error_count : steps.

Lemma _init_pool_keeps_inv : steps keeps_inv _init_pool.
Proof.
  intros s H. unfold inv in H.
  unfold _init_pool, try_except, bind, self, has_pool, call, update. simpl.
  destruct (pool (db s)) as [p |] eqn:Hp; simpl.
  - unfold inv. rewrite Hp. exact H.
  - destruct (MySQLConnectionPool (pool_config_of (db s)) (wld s)) as [[p | e] w];
      simpl; unfold inv; simpl; auto.
Qed.
Hint Resolve _init_pool_keeps_inv : steps.

Lemma get_connection_keeps_inv : steps keeps_inv get_connection.
Proof. unfold get_connection. steps_tac. Qed.
Hint Resolve get_connection_keeps_inv : steps.

Lemma is_connected_keeps_inv : steps keeps_inv is_connected.
Proof. unfold is_connected. steps_tac. Qed.
Hint Resolve is_connected_keeps_inv : steps.

Lemma execute_select_keeps_inv query params :
  steps keeps_inv (execute_select query params).
Proof.
  unfold execute_select, close_resources, reinit_on_known_errors. steps_tac.
Qed.
Hint Resolve execute_select_keeps_inv : steps.

Lemma execute_write_keeps_inv query params :
  steps keeps_inv (execute_write query params).
Proof.
  unfold execute_write, close_resources, reinit_on_known_errors,
    rollback_quietly.
  steps_tac.
Qed.
Hint Resolve execute_write_keeps_inv : steps.

Lemma setup_database_keeps_inv : steps keeps_inv setup_database.
Proof.
  unfold setup_database, create_tables, fix_database_issues. steps_tac.
Qed.

(** In a state that satisfies the invariant the gate of [get_connection]
    can only be closed while no pool has been built. *)
Lemma ceiling_exceeded_no_pool d :
  inv d -> ceiling_exceeded d = true ->
  pool d = None /\ _initialized d = false.
Proof.
  unfold inv, ceiling_exceeded. intros H Hc.
  apply andb_true_iff in Hc. destruct Hc as [Hc _].
  destruct (pool d).
  - destruct H as [_ H]. congruence.
  - auto.
Qed.

End Invariant.

(** ** The gate of [get_connection] comes after the retry *)

Section Gate.

Context {D : Driver}.

(** With the invariant, a closed gate means that no pool was ever built:
    [get_connection] then starts by building one, before it looks at the
    gate. *)
Lemma get_connection_retries_when_exceeded (s : sys) :
  inv (db s) -> ceiling_exceeded (db s) = true ->
  exists evs,
    trace (snd (get_connection s))
    = (trace s ++ EvPoolNew (pool_config_of (db s)) :: evs)%list.
Proof.
  intros Hinv Hgate.
  destruct (ceiling_exceeded_no_pool _ Hinv Hgate) as [Hp Hi].
  unfold get_connection, _init_pool, try_except, bind, self, call, update, ret,
    has_pool, ceiling_exceeded.
  simpl. rewrite Hp, Hi. simpl.
  repeat (break_match; simpl in * ); try congruence;
  repeat rewrite <- app_assoc; simpl; eexists; reflexivity.
Qed.

End Gate.

(** ** Repair once the server is back *)

Section Repair.

Context {D : Driver}.

Context (R : world -> Prop) (HR : reachable R).

Lemma serves_preorder : PreOrder (serves R).
Proof.
  split.
  - intros s Hr Hp He. auto.
  - intros a b c Hab Hbc Hr Hp He.
    destruct (Hab Hr Hp He) as [Hrb Hdb].
    rewrite <- Hdb in Hp, He.
    destruct (Hbc Hrb Hp He) as [Hrc Hdc].
    split; [assumption | congruence].
Qed.
#[local] Existing Instance serves_preorder.

Lemma serves_call {A} ev (op : world -> res A * world) :
  driver_op op -> steps (serves R) (call ev op).
Proof.
  intros Hop s Hr Hp He. unfold call.
  pose proof (reach_closed R HR A op Hop (wld s) Hr) as Hc.
  destruct (op (wld s)) as [r w]. simpl in *. auto.
Qed.

Hint Extern 1 (steps (serves R) (call _ _)) =>
  (apply serves_call; constructor) : steps.

Lemma _init_pool_serves : steps (serves R) _init_pool.
Proof.
  intros s Hr Hp He.
  unfold _init_pool, try_except, bind, self. simpl.
  rewrite Hp. simpl. auto.
Qed.
Hint Resolve _init_pool_serves : steps.

(** With a pool in place and a reachable server, acquisition succeeds. *)
Lemma get_connection_served (s : sys) :
  R (wld s) -> has_pool (db s) = true -> ceiling_exceeded (db s) = false ->
  exists c s', get_connection s = (Ok (Some c), s') /\
               R (wld s') /\ db s' = db s.
Proof.
  intros Hr Hp He.
  unfold get_connection, try_except, bind, self, call, ret.
  simpl. rewrite Hp. simpl. rewrite He. simpl.
  unfold has_pool in Hp. destruct (pool (db s)) as [p |] eqn:Epool; [| discriminate].
  destruct (reach_get R HR p (wld s) Hr) as [c Hc].
  pose proof (reach_closed R HR _ _ (op_get p) (wld s) Hr) as Hr1.
  destruct (pool_get_connection p (wld s)) as [r1 w1]. simpl in *. subst r1.
  pose proof (reach_alive R HR c w1 Hr1) as Ha.
  pose proof (reach_closed R HR _ _ (op_is_connected c) w1 Hr1) as Hr2.
  destruct (conn_is_connected c w1) as [r2 w2]. simpl in *. subst r2.
  eexists. eexists. split; [reflexivity |]. simpl. auto.
Qed.

Lemma get_connection_serves : steps (serves R) get_connection.
Proof.
  intros s Hr Hp He.
  destruct (get_connection_served s Hr Hp He) as [c [s' [E [Hr' Hd]]]].
  rewrite E. simpl. auto.
Qed.
Hint Resolve get_connection_serves : steps.

Lemma is_connected_serves : steps (serves R) is_connected.
Proof. unfold is_connected. steps_tac. Qed.
Hint Resolve is_connected_serves : steps.

Lemma execute_select_serves query params :
  steps (serves R) (execute_select query params).
Proof.
  unfold execute_select, close_resources, reinit_on_known_errors. steps_tac.
Qed.
Hint Resolve execute_select_serves : steps.

Lemma execute_write_serves query params :
  steps (serves R) (execute_write query params).
Proof.
  unfold execute_write, close_resources, reinit_on_known_errors,
    rollback_quietly.
  steps_tac.
Qed.
Hint Resolve execute_write_serves : steps.

Lemma create_tables_serves : steps (serves R) create_tables.
Proof. unfold create_tables. steps_tac. Qed.

Lemma fix_database_issues_serves : steps (serves R) fix_database_issues.
Proof. unfold fix_database_issues. steps_tac. Qed.

Lemma try_except_bind {S A B} (m : M S A) (k : A -> M S B) h s a s' :
  m s = (Ok a, s') -> try_except (bind m k) h s = try_except (k a) h s'.
Proof. intros E. unfold try_except, bind. rewrite E. reflexivity. Qed.

Lemma get_connection_rebuilds (s : sys) :
  R (wld s) -> pool (db s) = None -> _initialized (db s) = false ->
  exists p c s', get_connection s = (Ok (Some c), s') /\
                 R (wld s') /\ db s' = rebuilt p (db s).
Proof.
  intros Hr Hp Hi.
  destruct (reach_pool R HR (pool_config_of (db s)) (wld s) Hr) as [p Hpool].
  pose proof (reach_closed R HR _ _ (op_pool (pool_config_of (db s))) (wld s) Hr) as Hr1.
  exists p.
  unfold get_connection, _init_pool, try_except, bind, self,
    call, update, ret, has_pool, ceiling_exceeded.
  simpl. rewrite Hp, Hi. simpl. rewrite ?Hp. simpl.
  destruct (MySQLConnectionPool (pool_config_of (db s)) (wld s)) as [r0 w0].
  simpl in *. subst r0. simpl.
  destruct (reach_get R HR p w0 Hr1) as [c Hc].
  pose proof (reach_closed R HR _ _ (op_get p) w0 Hr1) as Hr2.
  destruct (pool_get_connection p w0) as [r1 w1]. simpl in *. subst r1. simpl.
  pose proof (reach_alive R HR c w1 Hr2) as Ha.
  pose proof (reach_closed R HR _ _ (op_is_connected c) w1 Hr2) as Hr3.
  destruct (conn_is_connected c w1) as [r2 w2]. simpl in *. subst r2. simpl.
  eexists. eexists. split; [reflexivity |]. simpl. auto.
Qed.

(** From a state without a pool, the health probe of a reachable server
    builds one. *)
Lemma is_connected_rebuilds (s : sys) :
  R (wld s) -> pool (db s) = None -> _initialized (db s) = false ->
  exists p, R (wld (snd (is_connected s))) /\
            db (snd (is_connected s)) = rebuilt p (db s).
Proof.
  intros Hr Hp Hi.
  destruct (get_connection_rebuilds s Hr Hp Hi) as [p [c [s' [E [Hr' Hd]]]]].
  exists p. unfold is_connected. rewrite (try_except_bind _ _ _ _ _ _ E).
  rewrite <- Hd.
  match goal with
  | |- context [try_except ?body ?h s'] =>
      assert (steps (serves R) (try_except body h)) as Hs by steps_tac
  end.
  apply Hs; [exact Hr' | rewrite Hd; reflexivity | rewrite Hd; reflexivity].
Qed.

Lemma fix_database_state (s : sys) :
  snd (fix_database s) = snd (setup_database s).
Proof.
  unfold fix_database, try_except, bind, ret.
  destruct (setup_database s) as [[[|] | e] s']; reflexivity.
Qed.

(** From a state without a pool, [setup_database] on a reachable server
    leaves the [Database] object as the first successful [_init_pool]
    made it. *)
Lemma setup_database_rebuilds (s : sys) :
  R (wld s) -> pool (db s) = None -> _initialized (db s) = false ->
  exists p, R (wld (snd (setup_database s))) /\
            db (snd (setup_database s)) = rebuilt p (db s).
Proof.
  intros Hr Hp Hi.
  destruct (is_connected_rebuilds s Hr Hp Hi) as [p [Hr1 Hd1]].
  exists p.
  destruct (is_connected_total s) as [alive Ha].
  destruct (is_connected s) as [r s1] eqn:E. simpl in *. subst r.
  unfold setup_database. rewrite (try_except_bind _ _ _ _ _ _ E).
  rewrite <- Hd1.
  match goal with
  | |- context [try_except ?body ?h s1] =>
      assert (steps (serves R) (try_except body h)) as Hs
  end.
  { pose proof create_tables_serves. pose proof fix_database_issues_serves.
    steps_tac. }
  apply Hs; [exact Hr1 | rewrite Hd1; reflexivity | rewrite Hd1; reflexivity].
Qed.

End Repair.

(** C7.  On a server that has become reachable again, the repair endpoint
    rebuilds the pool of a [Database] whose gate is closed (failed
    initialization, counter above the ceiling): afterwards a pool is in
    place, the failure counter is zero, and [get_connection] returns a
    connection. *)
Theorem repair_after_ceiling {D : Driver} (R : world -> Prop) (s : sys) :
  reachable R -> R (wld s) ->
  inv (db s) -> ceiling_exceeded (db s) = true ->
  pool (db s) = None /\
  (exists p, pool (db (snd (fix_database s))) = Some p) /\
  _error_count (db (snd (fix_database s))) = 0 /\
  (exists c, fst (get_connection (snd (fix_database s))) = Ok (Some c)).
Proof.
  intros HR Hr Hinv Hgate.
  destruct (ceiling_exceeded_no_pool _ Hinv Hgate) as [Hp Hi].
  destruct (setup_database_rebuilds R HR s Hr Hp Hi) as [p [Hr1 Hd1]].
  rewrite fix_database_state.
  split; [exact Hp |]. rewrite Hd1. split; [exists p; reflexivity |].
  split; [reflexivity |].
  destruct (get_connection_served R HR (snd (setup_database s)) Hr1)
    as [c [s' [E _]]]; try (rewrite Hd1; reflexivity).
  exists c. rewrite E. reflexivity.
Qed.

(** ** The bootstrap sequence behind the health probe *)

Section Setup.

Context {D : Driver}.

Lemma select_one_creates_nothing : ~ In "SELECT 1" create_table_queries.
Proof.
  unfold create_table_queries. simpl.
  intros [H | [H | [H | [H | []]]]]; discriminate H.
Qed.

(** C5.  [setup_database] returns [False] exactly when its health probe
    does.  In that case it stops there: its final state is the state the
    probe left, and the driver calls it made are those of the probe, none
    of which executes a table-creation statement.  The result is a value,
    not an exception. *)
Theorem setup_database_unhealthy (s : sys) :
  (fst (setup_database s) = Ok false <-> fst (is_connected s) = Ok false) /\
  (fst (is_connected s) = Ok false ->
   snd (setup_database s) = snd (is_connected s) /\
   exists evs,
     trace (snd (setup_database s)) = (trace s ++ evs)%list /\
     Forall probe_only evs /\
     forall cur q ps, In (EvExecute cur q ps) evs -> ~ In q create_table_queries).
Proof.
  assert (Hfalse : fst (is_connected s) = Ok false ->
                   setup_database s = (Ok false, snd (is_connected s))).
  { intros H. unfold setup_database, try_except, bind, ret.
    destruct (is_connected s) as [r s1]. simpl in H. subst r. reflexivity. }
  split; [split |].
  - intros H. destruct (is_connected_total s) as [[|] Ha]; [| exact Ha].
    exfalso. revert H.
    unfold setup_database, try_except, bind, ret.
    destruct (is_connected s) as [r s1]. simpl in Ha. subst r. simpl.
    destruct (create_tables_total s1) as [b1 H1].
    destruct (create_tables s1) as [r1 s2]. simpl in H1. subst r1.
    destruct (fix_database_issues_total s2) as [b2 H2].
    destruct (fix_database_issues s2) as [r2 s3]. simpl in H2. subst r2.
    simpl. discriminate.
  - intros H. rewrite (Hfalse H). reflexivity.
  - intros H. rewrite (Hfalse H). simpl. split; [reflexivity |].
    destruct (is_connected_probe_only s) as [evs [Ht Hall]].
    exists evs. split; [exact Ht |]. split; [exact Hall |].
    intros cur q ps Hin Hq.
    rewrite Forall_forall in Hall. specialize (Hall _ Hin). simpl in Hall.
    subst q. exact (select_one_creates_nothing Hq).
Qed.

(** C9.  Once the health probe has succeeded, [setup_database] returns
    [True] whatever the driver does afterwards: the results of
    [create_tables] and [fix_database_issues] are dropped.  The repair
    endpoint then answers with its success envelope. *)
Theorem setup_database_reports_success (s : sys) :
  fst (is_connected s) = Ok true ->
  fst (setup_database s) = Ok true /\
  exists body, fst (fix_database s) = Ok (Json body 200) /\ success body = true.
Proof.
  intros H.
  assert (Hs : fst (setup_database s) = Ok true).
  { unfold setup_database, try_except, bind, ret.
    destruct (is_connected s) as [r s1]. simpl in H. subst r. simpl.
    destruct (create_tables_total s1) as [b1 H1].
    destruct (create_tables s1) as [r1 s2]. simpl in H1. subst r1.
    destruct (fix_database_issues_total s2) as [b2 H2].
    destruct (fix_database_issues s2) as [r2 s3]. simpl in H2. subst r2.
    reflexivity. }
  split; [exact Hs |].
  unfold fix_database, try_except, bind, ret.
  destruct (setup_database s) as [r s']. simpl in Hs. subst r. simpl.
  eexists. split; reflexivity.
Qed.

End Setup.

(** ** The query executor and the handlers above it *)

Section Executor.

Context {D : Driver}.

(** C8.  When the connection is acquired and the cursor, the statement and
    the commit all succeed, [execute_write] returns the row count the
    driver reports, as it is: a count of [0] comes back as the integer
    [0], never as [None]. *)
Theorem execute_write_rowcount query params (s s1 : sys) c cur w2 w3 w4 w5 n :
  get_connection s = (Ok (Some c), s1) ->
  conn_cursor c false (wld s1) = (Ok cur, w2) ->
  cursor_execute cur query (params_or_empty params) w2 = (Ok tt, w3) ->
  conn_commit c w3 = (Ok tt, w4) ->
  cursor_rowcount cur w4 = (Ok n, w5) ->
  fst (execute_write query params s) = Ok (Some n) /\
  fst (execute_write query params s) <> Ok None.
Proof.
  intros Hget Hcur Hexe Hcommit Hcount.
  assert (E : fst (execute_write query params s) = Ok (Some n)).
  { unfold execute_write, with_frame, try_finally, try_except_Error,
      try_except, bind, lift, call, set_conn, set_cursor, ret.
    simpl. rewrite Hget. simpl. rewrite Hcur. simpl. rewrite Hexe. simpl.
    rewrite Hcommit. simpl. rewrite Hcount. simpl.
    match goal with
    | |- context [close_resources ?sf] =>
        destruct (close_resources_total sf) as [u Hu];
        destruct (close_resources sf) as [r sf']; simpl in Hu; subst r
    end.
    reflexivity. }
  split; [exact E | rewrite E; discriminate].
Qed.

(** [v == 'enabled'] holds for the string ['enabled'] only. *)
Lemma eq_str_enabled v : eq_str v "enabled" = true <-> v = VStr "enabled".
Proof.
  destruct v; simpl; split; intros H; try discriminate.
  - apply String.eqb_eq in H. congruence.
  - injection H as ->. reflexivity.
Qed.

Lemma py_or_enabled v :
  py_or v (VStr "disabled") = VStr "enabled" <-> v = VStr "enabled".
Proof.
  unfold py_or. split.
  - destruct (truthy v); [auto | discriminate].
  - intros ->. reflexivity.
Qed.

#[local] Arguments dict_get : simpl never.

(** C10.  The root page redirects to the maintenance page exactly when the
    first row of the settings query carries the string ['enabled'] under
    [setting_value].  In every other case, and in particular when the
    executor returns [None], the home page is served. *)
Theorem main_index_gate (s : sys) :
  let result := fst (execute_select SQL.select_maintenance_mode None s) in
  (fst (main_index s) = Ok (Redirect "/maintenance") <->
   exists first others,
     result = Ok (Some (first :: others)) /\
     dict_get first "setting_value" = Some (VStr "enabled")) /\
  (fst (main_index s) <> Ok (Redirect "/maintenance") ->
   fst (main_index s) = Ok (SendFile "." "hawkstudio.html")) /\
  (result = Ok None -> fst (main_index s) = Ok (SendFile "." "hawkstudio.html")).
Proof.
  unfold main_index, try_except, bind, ret, dict_index, raise. simpl.
  destruct (execute_select SQL.select_maintenance_mode None s) as [r s1].
  simpl.
  destruct r as [[[| [| kv first] others] |] | e]; simpl;
    try (split; [split; [discriminate | intros [f [o [H _]]]; discriminate H]
                | split; [reflexivity | intros; reflexivity]]).
  - (* an empty first row *)
    split; [split; [discriminate |] | split; [reflexivity | discriminate]].
    intros [f [o [H Hg]]]. injection H as <- <-. discriminate Hg.
  - destruct (dict_get (kv :: first) "setting_value") as [v |] eqn:Hv; simpl.
    + destruct (eq_str (py_or v (VStr "disabled")) "enabled") eqn:He; simpl.
      * apply (proj1 (eq_str_enabled _)) in He.
        apply (proj1 (py_or_enabled _)) in He. subst v.
        split; [split; [| reflexivity] | split; [congruence | discriminate]].
        intros _. exists (kv :: first), others. auto.
      * split; [split; [discriminate |] | split; [reflexivity | discriminate]].
        intros [f [o [H Hg]]]. injection H as <- <-.
        rewrite Hv in Hg. injection Hg as ->.
        rewrite (proj2 (eq_str_enabled _) (proj2 (py_or_enabled _) eq_refl)) in He.
        discriminate He.
    + split; [split; [discriminate |] | split; [reflexivity | discriminate]].
      intros [f [o [H Hg]]]. injection H as <- <-.
      rewrite Hv in Hg. discriminate Hg.
Qed.

(** C3, as the code has it.  When the executor returns [None], the public
    projects listing answers with its success envelope, status 200 and an
    empty list; the project-request form, once its required fields are
    there, answers with an error envelope and status 503. *)
Theorem handlers_on_unavailable (s : sys) json d :
  fst (execute_select SQL.select_projects None s) = Ok None ->
  json = Some d -> d <> [] ->
  first_missing ["name"; "email"; "description"] d = None ->
  fst (execute_write SQL.insert_project_request
         (Some [get_or d "name" VNone; get_or d "email" VNone;
                get_or d "project_type" (VStr "website");
                get_or d "description" VNone]) s) = Ok None ->
  (exists body,
     fst (get_projects s) = Ok (Json body 200) /\
     success body = true /\ data body = DRows [] /\ error body = None) /\
  (exists body,
     fst (create_project_request json s) = Ok (Json body 503) /\
     success body = false /\ error body = Some (message body)).
Proof.
  intros Hsel -> Hd Hreq Hw. split.
  - unfold get_projects, try_except, bind, ret.
    destruct (execute_select SQL.select_projects None s) as [r s1].
    simpl in Hsel. subst r. simpl. eexists. repeat split.
  - unfold create_project_request, try_except, bind, ret.
    destruct d as [| kv d]; [congruence |].
    rewrite Hreq.
    match goal with
    | H : fst (execute_write ?q ?p s) = _ |- _ =>
        destruct (execute_write q p s) as [r s1]
    end.
    simpl in Hw. subst r. simpl. eexists. repeat split.
Qed.

End Executor.

(** ** The scenarios, run *)

(** *** The retry ceiling, on a server that is down *)

(** C1, on the code.  With the server down, three calls of
    [get_connection] fail to build the pool, and so does a fourth: it too
    asks the driver for a pool.  After it the gate is closed (connection
    error recorded, counter at 4, above the ceiling of 3), and the fifth
    call still asks the driver for a pool before it returns [None]. *)
Theorem get_connection_retries_past_ceiling :
  let s3 := acquire_times 3 fresh_offline in
  let s4 := acquire_times 4 fresh_offline in
  let s5 := snd (get_connection s4) in
  _error_count (db s3) = 3 /\
  trace s4 = (trace s3 ++ [EvPoolNew (pool_config_of Database_default)])%list /\
  ceiling_exceeded (db s4) = true /\ _error_count (db s4) = 4 /\
  fst (get_connection s4) = Ok None /\
  trace s5 = (trace s4 ++ [EvPoolNew (pool_config_of Database_default)])%list /\
  _error_count (db s5) = 5.
Proof. vm_compute. repeat split. Qed.

(** *** A cursor that cannot be closed *)

(** C2, on the code.  When closing the cursor raises, both executors
    return their normal result, and the log shows that the connection
    they acquired (handle 2) was never closed: the [finally] clause stops
    at the first failing [close()]. *)
Theorem close_resources_skips_connection :
  let s := Faulty.start stuck_cursor in
  let q := "SELECT setting_key, setting_value FROM settings" in
  let u := "DELETE FROM project_requests WHERE id = %s" in
  fst (execute_select q None s) = Ok (Some []) /\
  trace (snd (execute_select q None s))
  = [EvPoolNew (pool_config_of Database_default); EvPoolGet 1%nat; EvIsConnected 2%nat;
     EvCursor 2%nat true; EvExecute 3%nat q []; EvFetchall 3%nat; EvCursorClose 3%nat] /\
  fst (execute_write u (Some [VInt 7]) s) = Ok (Some 1) /\
  trace (snd (execute_write u (Some [VInt 7]) s))
  = [EvPoolNew (pool_config_of Database_default); EvPoolGet 1%nat; EvIsConnected 2%nat;
     EvCursor 2%nat false; EvExecute 3%nat u [VInt 7]; EvCommit 2%nat; EvRowcount 3%nat;
     EvCursorClose 3%nat] /\
  ~ In (EvConnClose 2%nat) (trace (snd (execute_select q None s))) /\
  ~ In (EvConnClose 2%nat) (trace (snd (execute_write u (Some [VInt 7]) s))).
Proof.
  vm_compute. repeat split; intros H;
    repeat (destruct H as [H | H]; [discriminate H |]); exact H.
Qed.

(** *** A transient fault on a statement *)

(** C4, on the code.  The pool is built by a first health probe.  A
    [SELECT] and a write then fail with the known "connection not
    available" message: both executors return [None] and call
    [_init_pool], which finds the pool in place and returns.  The pool
    handle is the same afterwards and the log gains no pool
    construction. *)
Theorem known_error_does_not_rebuild :
  let s := snd (is_connected (Faulty.start flaky_statements)) in
  let q := "SELECT * FROM projects ORDER BY created_at DESC" in
  let u := "DELETE FROM projects WHERE id = %s" in
  pool (db s) = Some 1%nat /\
  contains "MySQL Connection not available" (exn_str connection_lost) = true /\
  fst (execute_select q None s) = Ok None /\
  pool (db (snd (execute_select q None s))) = Some 1%nat /\
  trace (snd (execute_select q None s))
  = (trace s ++ [EvPoolGet 1%nat; EvIsConnected 2%nat; EvCursor 2%nat true;
                 EvExecute 3%nat q []; EvCursorClose 3%nat; EvConnClose 2%nat])%list /\
  fst (execute_write u (Some [VInt 7]) s) = Ok None /\
  pool (db (snd (execute_write u (Some [VInt 7]) s))) = Some 1%nat /\
  trace (snd (execute_write u (Some [VInt 7]) s))
  = (trace s ++ [EvPoolGet 1%nat; EvIsConnected 2%nat; EvCursor 2%nat false;
                 EvExecute 3%nat u [VInt 7]; EvRollback 2%nat;
                 EvCursorClose 3%nat; EvConnClose 2%nat])%list.
Proof. vm_compute. repeat split. Qed.

(** *** The handlers in front of an unreachable server *)

(** C3, as stated, fails: with no server to reach, [execute_select]
    returns [None] and the projects listing answers 200, not 503. *)
Lemma get_projects_not_503 :
  ~ (forall (D : Driver) (s : sys),
       fst (execute_select SQL.select_projects None s) = Ok None ->
       exists body, fst (get_projects s) = Ok (Json body 503)).
Proof.
  intros H.
  destruct (H (Faulty.driver Faulty.unreachable) fresh_unreachable eq_refl)
    as [body Hb].
  vm_compute in Hb. discriminate Hb.
Qed.

Lemma handlers_on_unavailable_witness :
  (fst (execute_select SQL.select_projects None fresh_unreachable) = Ok None /\
   Some sample_request = Some sample_request /\
   sample_request <> [] /\
   first_missing ["name"; "email"; "description"] sample_request = None /\
   fst (execute_write SQL.insert_project_request
          (Some [get_or sample_request "name" VNone;
                 get_or sample_request "email" VNone;
                 get_or sample_request "project_type" (VStr "website");
                 get_or sample_request "description" VNone])
          fresh_unreachable) = Ok None) /\
  ((exists body,
      fst (get_projects fresh_unreachable) = Ok (Json body 200) /\
      success body = true /\ data body = DRows [] /\ error body = None) /\
   (exists body,
      fst (create_project_request (Some sample_request) fresh_unreachable)
      = Ok (Json body 503) /\
      success body = false /\ error body = Some (message body))).
Proof.
  split.
  - repeat split; try reflexivity. discriminate.
  - apply (handlers_on_unavailable fresh_unreachable (Some sample_request)
             sample_request);
      try reflexivity. discriminate.
Defined.

(** *** Startup without a server *)

Lemma setup_database_unhealthy_witness :
  fst (is_connected fresh_unreachable) = Ok false /\
  (snd (setup_database fresh_unreachable) = snd (is_connected fresh_unreachable) /\
   exists evs,
     trace (snd (setup_database fresh_unreachable))
     = (trace fresh_unreachable ++ evs)%list /\
     Forall probe_only evs /\
     forall cur q ps, In (EvExecute cur q ps) evs -> ~ In q create_table_queries).
Proof.
  split.
  - reflexivity.
  - apply (proj2 (setup_database_unhealthy fresh_unreachable)). reflexivity.
Defined.

(** *** A bootstrap in which every statement after the probe fails *)

(** Every table creation fails and the repair pass seeds nothing. *)
Example flaky_bootstrap_creates_nothing :
  fst (create_tables (snd (is_connected fresh_flaky))) = Ok false /\
  fst (execute_write SQL.insert_setting
         (Some [VStr "site_title"; VStr "HawkStudio"]) fresh_flaky) = Ok None.
Proof. vm_compute. split; reflexivity. Qed.

Lemma setup_database_reports_success_witness :
  fst (is_connected fresh_flaky) = Ok true /\
  (fst (setup_database fresh_flaky) = Ok true /\
   exists body,
     fst (fix_database fresh_flaky) = Ok (Json body 200) /\ success body = true).
Proof.
  split.
  - reflexivity.
  - apply (setup_database_reports_success fresh_flaky). reflexivity.
Defined.

(** *** Row counts *)

Lemma execute_write_rowcount_witness :
  (get_connection fresh_healthy
   = (Ok (Some 2%nat), snd (get_connection fresh_healthy)) /\
   @conn_cursor healthy_driver 2%nat false (wld (snd (get_connection fresh_healthy)))
   = (Ok 3%nat, tt) /\
   @cursor_execute healthy_driver 3%nat update_request_status
     (params_or_empty (Some [VStr "done"; VInt 42])) tt = (Ok tt, tt) /\
   @conn_commit healthy_driver 2%nat tt = (Ok tt, tt) /\
   @cursor_rowcount healthy_driver 3%nat tt = (Ok 0, tt)) /\
  (fst (execute_write update_request_status
          (Some [VStr "done"; VInt 42]) fresh_healthy) = Ok (Some 0) /\
   fst (execute_write update_request_status
          (Some [VStr "done"; VInt 42]) fresh_healthy) <> Ok None).
Proof.
  split.
  - repeat split.
  - apply (@execute_write_rowcount healthy_driver
             update_request_status
             (Some [VStr "done"; VInt 42]) fresh_healthy
             (snd (get_connection fresh_healthy)) 2%nat 3%nat tt tt tt tt 0);
      reflexivity.
Defined.

(** On the server with a store, inserting one setting reports one row. *)
Example insert_reports_one_row :
  let s : @sys Server.driver :=
    @mk_sys Server.driver Database_default
      (Server.online
         (Server.set_settings (Some Server.empty_table) Server.empty_store)) [] in
  fst (execute_write SQL.insert_setting
         (Some [VStr "site_title"; VStr "HawkStudio"]) s) = Ok (Some 1).
Proof. vm_compute. reflexivity. Qed.

(** *** The root page *)

(** With the setting at ['enabled'] the root page redirects; when the
    server is down, or before the bootstrap has created the table, it
    serves the home page. *)
Example main_index_on_server :
  fst (@main_index Server.driver
         (@mk_sys Server.driver Database_default
            (Server.online under_maintenance) []))
  = Ok (Redirect "/maintenance") /\
  fst (@main_index Server.driver
         (@mk_sys Server.driver Database_default
            (Server.offline under_maintenance) []))
  = Ok (SendFile "." "hawkstudio.html") /\
  fst (@main_index Server.driver
         (@mk_sys Server.driver Database_default
            (Server.online Server.empty_store) []))
  = Ok (SendFile "." "hawkstudio.html").
Proof. vm_compute. repeat split. Qed.

(** *** The server comes back *)

Section ServerReachable.

Import Server.

Lemma server_reachable : @reachable Server.driver is_up.
Proof.
  unfold is_up. split.
  - intros A op Hop w Hw.
    destruct Hop; simpl;
      unfold open_handle, execute, fetchone, fetchall, hashpw, quiet;
      repeat break_match; simpl; congruence.
  - intros cfg w Hw. simpl. unfold open_handle. rewrite Hw.
    eexists. reflexivity.
  - intros p w Hw. simpl. unfold open_handle. rewrite Hw.
    eexists. reflexivity.
  - intros c w Hw. simpl. rewrite Hw. reflexivity.
Qed.

End ServerReachable.

Lemma repair_after_ceiling_witness :
  (is_up (wld back_online) /\
   inv (db back_online) /\
   ceiling_exceeded (db back_online) = true) /\
  (pool (db back_online) = None /\
   (exists p, pool (db (snd (fix_database back_online))) = Some p) /\
   _error_count (db (snd (fix_database back_online))) = 0 /\
   (exists c, fst (get_connection (snd (fix_database back_online)))
              = Ok (Some c))).
Proof.
  split.
  - repeat split.
  - apply (@repair_after_ceiling Server.driver is_up back_online).
    + exact server_reachable.
    + reflexivity.
    + reflexivity.
    + reflexivity.
Defined.

(** ** The bootstrap on the server with a store *)

Section OnServer.

Import Server.

#[local] Existing Instance Server.driver.

Lemma server_get_connection (s : sys) :
  serving s ->
  exists c s', get_connection s = (Ok (Some c), s') /\
               db s' = db s /\ up (wld s') = true /\ st (wld s') = st (wld s).
Proof.
  destruct s as [d [u sigma lr lc nh sa] tr]. unfold serving. simpl.
  intros (Hu & Hp & Hg). subst u.
  unfold get_connection, try_except, bind, self, call, ret. simpl.
  rewrite Hp. simpl. rewrite Hg. simpl.
  unfold has_pool in Hp. destruct (pool d) as [p |]; [| discriminate].
  simpl. eexists. eexists. split; [reflexivity |]. simpl. auto.
Qed.

Lemma server_execute_write q ps (s : sys) :
  serving s ->
  exists s',
    execute_write q ps s
    = (Ok (count_of (sql_result q (params_or_empty ps) (st (wld s)))), s') /\
    serving s' /\
    st (wld s') = snd (sql_result q (params_or_empty ps) (st (wld s))).
Proof.
  intros Hs.
  destruct (server_get_connection s Hs) as (c & s1 & E & Hd & Hu & Hst).
  destruct Hs as (_ & Hp & Hg). rewrite <- Hd in Hp, Hg. rewrite <- Hst.
  clear Hd Hst.
  destruct s1 as [d [u sigma lr lc nh sa] tr]. simpl in *. subst u.
  unfold execute_write, with_frame, try_finally, try_except_Error, try_except,
    bind, lift, call, set_conn, set_cursor, ret, close_resources,
    rollback_quietly, reinit_on_known_errors, locals, count_of, sql_result,
    serving.
  simpl. rewrite E. simpl.
  unfold execute. simpl.
  destruct (parse q) as [stmt |]; simpl.
  - destruct (run stmt (params_or_empty ps) sigma) as [[[found n] | e] sigma'];
      simpl.
    + eexists. split; [reflexivity |]. simpl. auto.
    + unfold lift, _init_pool, try_except, bind, self, ret. simpl.
      repeat (break_match; simpl in * ); try congruence;
        eexists; (split; [reflexivity |]); simpl; auto.
  - eexists. split; [reflexivity |]. simpl. auto.
Qed.

Lemma server_execute_select q ps (s : sys) :
  serving s ->
  exists s',
    execute_select q ps s
    = (Ok (rows_of (sql_result q (params_or_empty ps) (st (wld s)))), s') /\
    serving s' /\
    st (wld s') = snd (sql_result q (params_or_empty ps) (st (wld s))).
Proof.
  intros Hs.
  destruct (server_get_connection s Hs) as (c & s1 & E & Hd & Hu & Hst).
  destruct Hs as (_ & Hp & Hg). rewrite <- Hd in Hp, Hg. rewrite <- Hst.
  clear Hd Hst.
  destruct s1 as [d [u sigma lr lc nh sa] tr]. simpl in *. subst u.
  unfold execute_select, with_frame, try_finally, try_except_Error, try_except,
    bind, lift, call, set_conn, set_cursor, ret, close_resources,
    reinit_on_known_errors, locals, rows_of, sql_result, serving.
  simpl. rewrite E. simpl.
  unfold execute. simpl.
  destruct (parse q) as [stmt |]; simpl.
  - destruct (run stmt (params_or_empty ps) sigma) as [[[found n] | e] sigma'];
      simpl.
    + eexists. split; [reflexivity |]. simpl. auto.
    + unfold lift, _init_pool, try_except, bind, self, ret. simpl.
      repeat (break_match; simpl in * ); try congruence;
        eexists; (split; [reflexivity |]); simpl; auto.
  - eexists. split; [reflexivity |]. simpl. auto.
Qed.

(** The health probe of a serving [Database] succeeds and leaves the
    store alone. *)
Lemma server_is_connected (s : sys) :
  serving s ->
  exists s', is_connected s = (Ok true, s') /\
             serving s' /\ st (wld s') = st (wld s).
Proof.
  intros Hs.
  destruct (server_get_connection s Hs) as (c & s1 & E & Hd & Hu & Hst).
  destruct Hs as (_ & Hp & Hg). rewrite <- Hd in Hp, Hg. rewrite <- Hst.
  clear Hd Hst.
  destruct s1 as [d [u sigma lr lc nh sa] tr]. simpl in *. subst u.
  unfold is_connected, try_except, bind, call, ret, serving.
  rewrite E. simpl.
  eexists. split; [reflexivity |]. simpl. auto.
Qed.

Lemma server_hashpw pw (s : sys) :
  serving s ->
  exists h s', call (EvHashpw pw) (bcrypt_hashpw pw) s = (Ok h, s') /\
               serving s' /\ st (wld s') = st (wld s).
Proof.
  intros Hs. unfold call, serving in *. simpl.
  eexists. eexists. split; [reflexivity |]. simpl. exact (conj Hs eq_refl).
Qed.

Lemma bind_ok {S A B} (m : M S A) (k : A -> M S B) s a s' :
  m s = (Ok a, s') -> bind m k s = k a s'.
Proof. intros E. unfold bind. rewrite E. reflexivity. Qed.

(** *** The bootstrap as a function on stores *)

Lemma server_create_table counts q (s : sys) :
  serving s ->
  exists counts' s',
    create_table counts q s = (Ok counts', s') /\
    serving s' /\ st (wld s') = snd (sql_result q [] (st (wld s))).
Proof.
  intros Hs. unfold create_table.
  destruct (server_execute_write q None s Hs) as (s1 & E & Hs1 & Hst).
  rewrite (bind_ok _ _ _ _ _ E).
  destruct (count_of _); eexists; eexists; (split; [reflexivity | auto]).
Qed.

Lemma server_create_tables (s : sys) :
  serving s ->
  exists b s', create_tables s = (Ok b, s') /\
               serving s' /\ st (wld s') = create_all (st (wld s)).
Proof.
  assert (Hloop : forall qs counts (s : sys), serving s ->
            exists counts' s',
              for_fold qs counts create_table s = (Ok counts', s') /\
              serving s' /\
              st (wld s')
              = fold_left (fun sigma q => snd (sql_result q [] sigma)) qs
                          (st (wld s))).
  { induction qs as [| q qs IH]; intros counts s0 Hs; simpl.
    - eexists. eexists. split; [reflexivity | auto].
    - destruct (server_create_table counts q s0 Hs) as (c1 & s1 & E & Hs1 & Hst).
      rewrite (bind_ok _ _ _ _ _ E). rewrite <- Hst. apply IH. exact Hs1. }
  intros Hs.
  destruct (Hloop create_table_queries (0, 0) s Hs) as (c & s' & E & Hs' & Hst).
  unfold create_tables, try_except. rewrite (bind_ok _ _ _ _ _ E).
  eexists. eexists. split; [reflexivity | auto].
Qed.

Lemma parse_select_table : parse SQL.select_table = Some SelectTable.
Proof. reflexivity. Qed.

(** The presence check reads the catalogue only. *)
Lemma select_table_reads ps sigma :
  snd (sql_result SQL.select_table ps sigma) = sigma.
Proof.
  unfold sql_result. rewrite parse_select_table. unfold run.
  repeat break_match; reflexivity.
Qed.

Lemma server_check_table table (s : sys) :
  serving s ->
  exists s', check_table table s = (Ok tt, s') /\
             serving s' /\ st (wld s') = st (wld s).
Proof.
  intros Hs. unfold check_table, self, bind at 1.
  match goal with
  | |- context [execute_select ?q ?ps] =>
      destruct (server_execute_select q ps s Hs) as (s1 & E & Hs1 & Hst)
  end.
  rewrite (bind_ok _ _ _ _ _ E).
  rewrite select_table_reads in Hst.
  eexists. split; [reflexivity | auto].
Qed.

Lemma parse_select_admin : parse SQL.select_admin = Some SelectAdmin.
Proof. reflexivity. Qed.

Lemma select_admin_reads ps sigma :
  snd (sql_result SQL.select_admin ps sigma) = sigma.
Proof.
  unfold sql_result. rewrite parse_select_admin. unfold run.
  repeat break_match; reflexivity.
Qed.

Lemma parse_select_setting : parse SQL.select_setting = Some SelectSetting.
Proof. reflexivity. Qed.

Lemma select_setting_reads ps sigma :
  snd (sql_result SQL.select_setting ps sigma) = sigma.
Proof.
  unfold sql_result. rewrite parse_select_setting.
  unfold run, select_setting_value.
  repeat break_match; reflexivity.
Qed.

Lemma server_ensure_admin (s : sys) :
  serving s ->
  exists h s', ensure_admin s = (Ok tt, s') /\
               serving s' /\ st (wld s') = with_admin h (st (wld s)).
Proof.
  intros Hs. unfold ensure_admin, with_admin.
  destruct (server_execute_select SQL.select_admin None s Hs)
    as (s1 & E & Hs1 & Hst).
  rewrite (bind_ok _ _ _ _ _ E). simpl params_or_empty in *.
  rewrite select_admin_reads in Hst.
  destruct (no_rows _).
  - destruct (server_hashpw "admin123" s1 Hs1) as (h & s2 & E2 & Hs2 & Hst2).
    rewrite (bind_ok _ _ _ _ _ E2).
    destruct (server_execute_write SQL.insert_admin (Some (admin_params h)) s2 Hs2)
      as (s3 & E3 & Hs3 & Hst3).
    rewrite (bind_ok _ _ _ _ _ E3).
    exists h. eexists. split; [reflexivity |]. split; [exact Hs3 |].
    rewrite Hst3, Hst2, Hst. reflexivity.
  - exists "". eexists. split; [reflexivity | auto].
Qed.

Lemma server_ensure_setting kv (s : sys) :
  serving s ->
  exists s', ensure_setting kv s = (Ok tt, s') /\
             serving s' /\ st (wld s') = with_setting (st (wld s)) kv.
Proof.
  intros Hs. unfold ensure_setting, with_setting.
  destruct (server_execute_select SQL.select_setting (Some [VStr (fst kv)]) s Hs)
    as (s1 & E & Hs1 & Hst).
  rewrite (bind_ok _ _ _ _ _ E). simpl params_or_empty in *.
  rewrite select_setting_reads in Hst.
  destruct (no_rows _).
  - destruct (server_execute_write SQL.insert_setting
                (Some [VStr (fst kv); VStr (snd kv)]) s1 Hs1)
      as (s2 & E2 & Hs2 & Hst2).
    rewrite (bind_ok _ _ _ _ _ E2).
    eexists. split; [reflexivity |]. split; [exact Hs2 |].
    rewrite Hst2, Hst. reflexivity.
  - eexists. split; [reflexivity | auto].
Qed.

Lemma server_for_each {A} (xs : list A) (body : A -> M sys unit)
    (f : store -> A -> store) :
  (forall x s, serving s ->
     exists s', body x s = (Ok tt, s') /\
                serving s' /\ st (wld s') = f (st (wld s)) x) ->
  forall s, serving s ->
    exists s', for_each xs body s = (Ok tt, s') /\
               serving s' /\ st (wld s') = fold_left f xs (st (wld s)).
Proof.
  intros Hb. induction xs as [| x xs IH]; intros s Hs; simpl.
  - eexists. split; [reflexivity | auto].
  - destruct (Hb x s Hs) as (s1 & E & Hs1 & Hst).
    rewrite (bind_ok _ _ _ _ _ E). rewrite <- Hst. apply IH. exact Hs1.
Qed.

Lemma fold_left_same {A} (xs : list A) (sigma : store) :
  fold_left (fun sigma _ => sigma) xs sigma = sigma.
Proof. induction xs; simpl; auto. Qed.

Lemma server_fix_database_issues (s : sys) :
  serving s ->
  exists h s', fix_database_issues s = (Ok true, s') /\
               serving s' /\ st (wld s') = seeded h (st (wld s)).
Proof.
  intros Hs. unfold fix_database_issues, seeded.
  destruct (server_is_connected s Hs) as (s1 & E1 & Hs1 & Hst1).
  rewrite (bind_ok _ _ _ _ _ E1). change (negb true) with false. cbv beta iota.
  destruct (server_for_each tables_to_check check_table (fun sigma _ => sigma)
              server_check_table s1 Hs1) as (s2 & E2 & Hs2 & Hst2).
  rewrite fold_left_same in Hst2.
  destruct (server_ensure_admin s2 Hs2) as (h & s3 & E3 & Hs3 & Hst3).
  destruct (server_for_each basic_settings ensure_setting with_setting
              server_ensure_setting s3 Hs3) as (s4 & E4 & Hs4 & Hst4).
  exists h, s4. unfold try_except. cbv beta.
  rewrite (bind_ok _ _ _ _ _ E2), (bind_ok _ _ _ _ _ E3), (bind_ok _ _ _ _ _ E4).
  split; [reflexivity |]. split; [exact Hs4 |].
  rewrite Hst4, Hst3, Hst2, Hst1. reflexivity.
Qed.

(** *** The store side of the bootstrap *)

(** A [SELECT ... WHERE] finds no row exactly when no row matches. *)
Lemma none_found {A B} (f : A -> B) (P : A -> bool) (l : list A) :
  match map f (filter P l) with [] => true | _ :: _ => false end
  = negb (existsb P l).
Proof.
  induction l as [| x l IH]; simpl; [reflexivity |].
  destruct (P x); simpl; [reflexivity | exact IH].
Qed.

Lemma collate_eq_refl k : collate_eq k k = true.
Proof. unfold collate_eq. apply String.eqb_refl. Qed.

Lemma create_all_tables sigma :
  exists tp tr ta ts,
    create_all sigma
    = {| projects := Some tp; project_requests := Some tr;
         admin_users := Some ta; settings := Some ts |} /\
    (forall t, admin_users sigma = Some t -> ta = t) /\
    (forall t, settings sigma = Some t -> ts = t).
Proof.
  destruct sigma as [[tp |] [tr |] [ta |] [ts |]];
    do 4 eexists; (split; [reflexivity |]);
    split; intros t H; simpl in H; congruence.
Qed.

Lemma create_all_existing tp tr ta ts :
  create_all {| projects := Some tp; project_requests := Some tr;
                admin_users := Some ta; settings := Some ts |}
  = {| projects := Some tp; project_requests := Some tr;
       admin_users := Some ta; settings := Some ts |}.
Proof. reflexivity. Qed.

Lemma parse_insert_admin : parse SQL.insert_admin = Some InsertAdmin.
Proof. reflexivity. Qed.

Lemma parse_insert_setting : parse SQL.insert_setting = Some InsertSetting.
Proof. reflexivity. Qed.

(** [ensure_admin] on a store that has the table. *)
Lemma with_admin_spec h tp tr ta ts :
  exists ta',
    with_admin h {| projects := tp; project_requests := tr;
                    admin_users := Some ta; settings := ts |}
    = {| projects := tp; project_requests := tr;
         admin_users := Some ta'; settings := ts |} /\
    existsb is_admin (rows ta') = true /\
    (existsb is_admin (rows ta) = true -> ta' = ta).
Proof.
  unfold with_admin, sql_result, rows_of.
  rewrite parse_select_admin, parse_insert_admin.
  unfold run, admin_params. simpl.
  rewrite none_found. fold is_admin.
  destruct (existsb is_admin (rows ta)) eqn:E; simpl.
  - exists ta. auto.
  - eexists. split; [reflexivity |]. split.
    + simpl. rewrite existsb_app. simpl. apply orb_true_r.
    + discriminate.
Qed.

(** [ensure_setting] on a store that has the table. *)
Lemma with_setting_spec kv tp tr ta ts :
  exists ts',
    with_setting {| projects := tp; project_requests := tr;
                    admin_users := ta; settings := Some ts |} kv
    = {| projects := tp; project_requests := tr;
         admin_users := ta; settings := Some ts' |} /\
    existsb (has_key (fst kv)) (rows ts') = true /\
    (forall k, existsb (has_key k) (rows ts) = true ->
               existsb (has_key k) (rows ts') = true) /\
    (existsb (has_key (fst kv)) (rows ts) = true -> ts' = ts).
Proof.
  unfold with_setting, sql_result, rows_of.
  rewrite parse_select_setting, parse_insert_setting.
  unfold run, select_setting_value. simpl.
  rewrite none_found. fold (has_key (fst kv)).
  destruct (existsb (has_key (fst kv)) (rows ts)) eqn:E; simpl.
  - exists ts. auto.
  - eexists. split; [reflexivity |]. split; [| split].
    + simpl. rewrite existsb_app. simpl.
      unfold has_key at 2, column_is. simpl.
      rewrite collate_eq_refl. apply orb_true_r.
    + intros k Hk. simpl. rewrite existsb_app, Hk. reflexivity.
    + discriminate.
Qed.

Lemma with_settings_spec kvs : forall tp tr ta ts,
  exists ts',
    fold_left with_setting kvs
      {| projects := tp; project_requests := tr;
         admin_users := ta; settings := Some ts |}
    = {| projects := tp; project_requests := tr;
         admin_users := ta; settings := Some ts' |} /\
    (forall kv, In kv kvs -> existsb (has_key (fst kv)) (rows ts') = true) /\
    (forall k, existsb (has_key k) (rows ts) = true ->
               existsb (has_key k) (rows ts') = true) /\
    ((forall kv, In kv kvs -> existsb (has_key (fst kv)) (rows ts) = true) ->
     ts' = ts).
Proof.
  induction kvs as [| kv kvs IH]; intros tp tr ta ts; simpl.
  - exists ts. repeat split; auto; contradiction.
  - destruct (with_setting_spec kv tp tr ta ts) as (ts1 & E1 & Hin1 & Hmono1 & Hid1).
    rewrite E1.
    destruct (IH tp tr ta ts1) as (ts2 & E2 & Hin2 & Hmono2 & Hid2).
    exists ts2. split; [exact E2 |]. split; [| split].
    + intros kv' [<- | Hin]; auto.
    + auto.
    + intros Hall.
      assert (ts1 = ts) as -> by auto.
      apply Hid2. auto.
Qed.

(** After one pass the store is bootstrapped. *)
Lemma seeded_bootstrapped h sigma : bootstrapped (seeded h (create_all sigma)).
Proof.
  destruct (create_all_tables sigma) as (tp & tr & ta & ts & E & _).
  rewrite E. unfold seeded.
  destruct (with_admin_spec h (Some tp) (Some tr) ta (Some ts))
    as (ta' & Ea & Hadmin & _).
  rewrite Ea.
  destruct (with_settings_spec basic_settings (Some tp) (Some tr) (Some ta') ts)
    as (ts' & Es & Hkeys & _).
  rewrite Es. exists tp, tr, ta', ts'. auto.
Qed.

(** A pass over a bootstrapped store changes nothing. *)
Lemma seeded_again h sigma :
  bootstrapped sigma -> seeded h (create_all sigma) = sigma.
Proof.
  intros (tp & tr & ta & ts & -> & Hadmin & Hkeys).
  rewrite create_all_existing. unfold seeded.
  destruct (with_admin_spec h (Some tp) (Some tr) ta (Some ts))
    as (ta' & Ea & _ & Hsame).
  rewrite Ea. rewrite (Hsame Hadmin).
  destruct (with_settings_spec basic_settings (Some tp) (Some tr) (Some ta) ts)
    as (ts' & Es & _ & _ & Hsame').
  rewrite Es. rewrite (Hsame' Hkeys). reflexivity.
Qed.

(** *** The health probe on the server *)

Ltac unfold_probe :=
  unfold is_connected, get_connection, _init_pool, try_except, bind, self,
    call, update, ret, blocked, serving, has_pool, ceiling_exceeded;
  simpl.

(** Case analysis on the flags and the counter of the [Database]. *)
Ltac probe_cases ini ce ec mr :=
  let Hgt := fresh "Hgt" in
  let Hle := fresh "Hle" in
  destruct ini, ce, (ec >? mr) eqn:Hgt, (ec <=? mr) eqn:Hle;
  simpl; rewrite ?Hgt, ?Hle; simpl;
  try (apply Z.gtb_lt in Hgt; apply Z.leb_le in Hle; lia);
  try (rewrite Z.gtb_ltb in Hgt; apply Z.ltb_ge in Hgt;
       apply Z.leb_gt in Hle; lia).

Lemma server_probe_blocked (s : sys) :
  blocked (db s) = true -> is_connected s = (Ok false, s).
Proof.
  destruct s as [[h u pw n prt [p |] ini ce ec mr] w tr]; unfold_probe;
    probe_cases ini ce ec mr; intros H; try discriminate H; reflexivity.
Qed.

Lemma server_probe_down (s : sys) :
  up (wld s) = false ->
  exists s1, is_connected s = (Ok false, s1) /\
             up (wld s1) = false /\ st (wld s1) = st (wld s).
Proof.
  destruct s as [[h u pw n prt [p |] ini ce ec mr] [b sigma lr lc nh sa] tr].
  all: simpl; intros ->; unfold_probe; unfold open_handle; simpl.
  all: probe_cases ini ce ec mr.
  all: eexists; (split; [reflexivity |]); simpl; auto.
Qed.

Lemma server_probe_up (s : sys) :
  up (wld s) = true -> blocked (db s) = false ->
  exists s1, is_connected s = (Ok true, s1) /\
             serving s1 /\ st (wld s1) = st (wld s).
Proof.
  destruct s as [[h u pw n prt [p |] ini ce ec mr] [b sigma lr lc nh sa] tr].
  all: simpl; intros ->; unfold_probe; unfold open_handle; simpl.
  all: probe_cases ini ce ec mr.
  all: intros H; try discriminate H.
  all: eexists; (split; [reflexivity |]); simpl; auto.
Qed.

Lemma setup_database_stops (s s1 : sys) :
  is_connected s = (Ok false, s1) -> setup_database s = (Ok false, s1).
Proof.
  intros E. unfold setup_database, try_except. rewrite (bind_ok _ _ _ _ _ E).
  reflexivity.
Qed.

Lemma server_setup_after_probe (s s1 : sys) :
  is_connected s = (Ok true, s1) -> serving s1 ->
  exists h s', setup_database s = (Ok true, s') /\
               serving s' /\ st (wld s') = seeded h (create_all (st (wld s1))).
Proof.
  intros E1 Hs1. unfold setup_database, try_except.
  destruct (server_create_tables s1 Hs1) as (b & s2 & E2 & Hs2 & Hst2).
  destruct (server_fix_database_issues s2 Hs2) as (h & s3 & E3 & Hs3 & Hst3).
  rewrite (bind_ok _ _ _ _ _ E1). change (negb true) with false. cbv beta iota.
  rewrite (bind_ok _ _ _ _ _ E2), (bind_ok _ _ _ _ _ E3).
  exists h, s3. split; [reflexivity |]. split; [exact Hs3 |].
  rewrite Hst3, Hst2. reflexivity.
Qed.

(** What one run of [setup_database] does to the server's store: nothing,
    and a second run will again do nothing; or a full pass, which leaves
    the [Database] serving. *)
Lemma server_setup_cases (s : sys) :
  (exists s1, setup_database s = (Ok false, s1) /\
              st (wld s1) = st (wld s) /\
              (up (wld s1) = false \/ (s1 = s /\ blocked (db s) = true))) \/
  (exists h s1, setup_database s = (Ok true, s1) /\
                serving s1 /\ st (wld s1) = seeded h (create_all (st (wld s)))).
Proof.
  destruct (up (wld s)) eqn:Hup.
  - destruct (blocked (db s)) eqn:Hb.
    + left. exists s. split; [| auto].
      apply setup_database_stops, server_probe_blocked, Hb.
    + right. destruct (server_probe_up s Hup Hb) as (s1 & E & Hs1 & Hst).
      rewrite <- Hst. apply (server_setup_after_probe s s1 E Hs1).
  - left. destruct (server_probe_down s Hup) as (s1 & E & Hup1 & Hst).
    exists s1. split; [| auto]. apply setup_database_stops, E.
Qed.

End OnServer.

(** C6.  On the server with a store, whatever the store holds and
    whatever state the [Database] object is in, a second run of the
    bootstrap sequence leaves the store exactly as the first run left it:
    the same tables with the same rows.  In particular the second run adds
    no default-administrator row and no row for any default setting
    key. *)
Theorem bootstrap_idempotent (s : @sys Server.driver) :
  let once := Server.st (wld (snd (@setup_database Server.driver s))) in
  let twice :=
    Server.st (wld (snd (@setup_database Server.driver
                           (snd (@setup_database Server.driver s))))) in
  twice = once /\
  count_rows is_admin (Server.admin_users twice)
  = count_rows is_admin (Server.admin_users once) /\
  forall kv, In kv basic_settings ->
    count_rows (has_key (fst kv)) (Server.settings twice)
    = count_rows (has_key (fst kv)) (Server.settings once).
Proof.
  cbv zeta.
  assert (Hsame :
    Server.st (wld (snd (@setup_database Server.driver
                           (snd (@setup_database Server.driver s)))))
    = Server.st (wld (snd (@setup_database Server.driver s)))).
  { destruct (server_setup_cases s)
      as [(s1 & E & Hst & Hwhy) | (h & s1 & E & Hs1 & Hst)];
      rewrite E; simpl.
    - destruct Hwhy as [Hdown | [-> Hb]].
      + destruct (server_probe_down s1 Hdown) as (s2 & E2 & _ & Hst2).
        rewrite (setup_database_stops _ _ E2). exact Hst2.
      + rewrite E. reflexivity.
    - destruct (server_setup_cases s1)
        as [(s2 & E2 & Hst2 & Hwhy) | (h2 & s2 & E2 & Hs2 & Hst2)];
        rewrite E2; simpl.
      + exact Hst2.
      + rewrite Hst2, Hst. apply seeded_again, seeded_bootstrapped. }
  rewrite Hsame. auto.
Qed.

(** From an empty database, two runs leave one administrator and one row
    per default setting. *)
Example bootstrap_twice_from_empty :
  let s : @sys Server.driver :=
    @mk_sys Server.driver Database_default (Server.online Server.empty_store) [] in
  let twice :=
    Server.st (wld (snd (@setup_database Server.driver
                           (snd (@setup_database Server.driver s))))) in
  count_rows is_admin (Server.admin_users twice) = 1%nat /\
  map (fun kv => count_rows (has_key (fst kv)) (Server.settings twice))
      basic_settings
  = [1; 1; 1; 1; 1; 1; 1; 1]%nat.
Proof. vm_compute. split; reflexivity. Qed.

(** * Further properties *)

(** ** The [Database] object over any sequence of calls *)

Section Sequences.

Context {D : Driver}.

#[local] Existing Instance keeps_inv_preorder.
#[local] Existing Instance keeps_pool_preorder.

Hint Resolve keeps_inv_call keeps_inv_error_count _init_pool_keeps_inv
  get_connection_keeps_inv is_connected_keeps_inv execute_select_keeps_inv
  execute_write_keeps_inv : steps.

Lemma create_tables_keeps_inv : steps keeps_inv create_tables.
Proof. unfold create_tables. steps_tac. Qed.

Lemma fix_database_issues_keeps_inv : steps keeps_inv fix_database_issues.
Proof. unfold fix_database_issues. steps_tac. Qed.

Lemma call_method_keeps_inv m (s : sys) :
  inv (db s) -> inv (db (call_method m s)).
Proof.
  destruct m; simpl.
  - apply _init_pool_keeps_inv.
  - apply get_connection_keeps_inv.
  - apply is_connected_keeps_inv.
  - apply execute_select_keeps_inv.
  - apply execute_write_keeps_inv.
  - apply create_tables_keeps_inv.
  - apply fix_database_issues_keeps_inv.
  - apply setup_database_keeps_inv.
Qed.

Lemma call_methods_keep_inv ms : forall s : sys,
  inv (db s) -> inv (db (call_methods ms s)).
Proof.
  unfold call_methods.
  induction ms as [| m ms IH]; intros s H; simpl; [exact H |].
  apply IH, call_method_keeps_inv, H.
Qed.

(** X1.  Whatever the driver does and whatever methods are called in
    whatever order on a [Database] built by [__init__], [pool] and
    [_initialized] are set together (a pool is there exactly when
    [_initialized] is [True]), and while a pool is there
    [_connection_error] is [False]. *)
Theorem database_invariant h u pw n prt (w : world) (ms : list method) :
  let d := db (call_methods ms
                 {| db := Database_init h u pw n prt; wld := w; trace := [] |}) in
  has_pool d = _initialized d /\
  (has_pool d && _connection_error d)%bool = false.
Proof.
  cbv zeta.
  pose proof (call_methods_keep_inv ms
                {| db := Database_init h u pw n prt; wld := w; trace := [] |}
                (inv_init h u pw n prt)) as H.
  unfold inv, has_pool in *.
  destruct (pool (db (call_methods ms _))).
  - destruct H as [H1 H2]. rewrite H1, H2. split; reflexivity.
  - rewrite H. split; reflexivity.
Qed.

Hint Extern 1 (steps keeps_pool (call _ _)) =>
  (apply keeps_pool_call; exact I) : steps.
Hint Extern 1 (steps keeps_pool (update _)) =>
  (apply keeps_pool_update; reflexivity) : steps.
Hint Resolve _init_pool_keeps_pool get_connection_keeps_pool
  execute_select_keeps_pool execute_write_keeps_pool : steps.

Lemma is_connected_keeps_pool : steps keeps_pool is_connected.
Proof. unfold is_connected. steps_tac. Qed.
Hint Resolve is_connected_keeps_pool : steps.

Lemma create_tables_keeps_pool : steps keeps_pool create_tables.
Proof. unfold create_tables. steps_tac. Qed.

Lemma fix_database_issues_keeps_pool : steps keeps_pool fix_database_issues.
Proof. unfold fix_database_issues. steps_tac. Qed.

Lemma setup_database_keeps_pool : steps keeps_pool setup_database.
Proof.
  pose proof create_tables_keeps_pool. pose proof fix_database_issues_keeps_pool.
  unfold setup_database. steps_tac.
Qed.


Lemma call_method_keeps_pool m (s : sys) : keeps_pool s (call_method m s).
Proof.
  destruct m; simpl.
  - apply _init_pool_keeps_pool.
  - apply get_connection_keeps_pool.
  - apply is_connected_keeps_pool.
  - apply execute_select_keeps_pool.
  - apply execute_write_keeps_pool.
  - apply create_tables_keeps_pool.
  - apply fix_database_issues_keeps_pool.
  - apply setup_database_keeps_pool.
Qed.

Lemma call_methods_keep_pool ms : forall s : sys,
  keeps_pool s (call_methods ms s).
Proof.
  unfold call_methods.
  induction ms as [| m ms IH]; intros s; simpl; [reflexivity |].
  etransitivity; [apply call_method_keeps_pool | apply IH].
Qed.

(** X2.  Once a pool has been built it is the pool for good: after any
    sequence of calls, whatever errors the driver raised in between, the
    [Database] still holds the same pool, no other pool construction was
    attempted, and [get_connection] still goes to that pool (its
    short-circuit test stays false). *)
Theorem pool_built_once (s : sys) p (ms : list method) :
  inv (db s) -> pool (db s) = Some p ->
  pool (db (call_methods ms s)) = Some p /\
  ceiling_exceeded (db (call_methods ms s)) = false /\
  exists evs, trace (call_methods ms s) = (trace s ++ evs)%list /\
              forall cfg, ~ In (EvPoolNew cfg) evs.
Proof.
  intros Hinv Hp.
  destruct (call_methods_keep_pool ms s p Hp) as [Hp' [evs [Ht Hall]]].
  pose proof (call_methods_keep_inv ms s Hinv) as Hinv'.
  split; [exact Hp' |]. split.
  - unfold inv in Hinv'. rewrite Hp' in Hinv'. destruct Hinv' as [_ He].
    unfold ceiling_exceeded. rewrite He. reflexivity.
  - exists evs. split; [exact Ht |].
    intros cfg Hin. rewrite Forall_forall in Hall. exact (Hall _ Hin).
Qed.

(** X3.  In a state that satisfies the invariant [get_connection] never
    returns without having gone to the driver: its first driver call is
    the construction of a pool when there is none, and
    [pool.get_connection()] when there is one.  The test on the failure
    counter never stops it before that. *)
Theorem get_connection_reaches_driver (s : sys) :
  inv (db s) ->
  exists evs,
    trace (snd (get_connection s))
    = (trace s ++ first_driver_call (db s) :: evs)%list.
Proof.
  intros Hinv. unfold inv in Hinv. unfold first_driver_call.
  unfold get_connection, _init_pool, try_except, bind, self, call, update, ret,
    has_pool, ceiling_exceeded.
  simpl. destruct (pool (db s)) as [p |] eqn:Hp.
  - destruct Hinv as [Hi He]. simpl. rewrite ?Hi. simpl. rewrite He. simpl.
    rewrite ?Hp. simpl.
    repeat (break_match; simpl in * ); try congruence;
      repeat rewrite <- app_assoc; simpl; eexists; reflexivity.
  - rewrite Hinv. simpl. rewrite ?Hp. simpl.
    repeat (break_match; simpl in * ); try congruence;
      repeat rewrite <- app_assoc; simpl; eexists; reflexivity.
Qed.

End Sequences.

(** ** The executors, path by path *)

Section Paths.

Context {D : Driver}.




(** X5.  When [get_connection] returns [None] both executors return
    [None] at once: they end in the state [get_connection] left, without
    any further driver call. *)
Theorem executors_without_connection query params (s s1 : sys) :
  get_connection s = (Ok None, s1) ->
  execute_select query params s = (Ok None, s1) /\
  execute_write query params s = (Ok None, s1).
Proof.
  intros Hget. split.
  - unfold execute_select, with_frame, try_finally, try_except_Error,
      try_except, bind, lift, set_conn, ret, close_resources, locals.
    simpl. rewrite Hget. reflexivity.
  - unfold execute_write, with_frame, try_finally, try_except_Error,
      try_except, bind, lift, set_conn, ret, close_resources, locals.
    simpl. rewrite Hget. reflexivity.
Qed.




(** X8.  [is_connected] answers [True] only after the whole round trip:
    a connection was acquired, and a cursor, [SELECT 1], the fetch and both
    [close()] calls succeeded on it, in that order and with nothing after
    them; the [Database] object is as [get_connection] left it. *)
Theorem is_connected_round_trip (s : sys) :
  fst (is_connected s) = Ok true ->
  exists s1 c cur,
    get_connection s = (Ok (Some c), s1) /\
    db (snd (is_connected s)) = db s1 /\
    trace (snd (is_connected s))
    = (trace s1 ++ [EvCursor c false; EvExecute cur "SELECT 1" [];
                    EvFetchone cur; EvCursorClose cur; EvConnClose c])%list.
Proof.
  unfold is_connected, try_except, bind, call, ret.
  destruct (get_connection s) as [[[c |] | e] s1]; simpl;
    try discriminate.
  destruct (conn_cursor c false (wld s1)) as [[cur | e] w2]; simpl;
    try discriminate.
  destruct (cursor_execute cur "SELECT 1" [] w2) as [[[] | e] w3]; simpl;
    try discriminate.
  destruct (cursor_fetchone cur w3) as [[found | e] w4]; simpl;
    try discriminate.
  destruct (cursor_close cur w4) as [[[] | e] w5]; simpl; try discriminate.
  destruct (conn_close c w5) as [[[] | e] w6]; simpl; try discriminate.
  intros _. exists s1, c, cur. split; [reflexivity |]. split; [reflexivity |].
  repeat rewrite <- app_assoc. reflexivity.
Qed.

(** X9.  When the probe statement of [is_connected] raises, the method
    answers [False] and stops there: the connection it acquired is not
    closed (the log ends with the failed [execute]). *)
Theorem is_connected_failed_probe (s s1 : sys) c cur w2 w3 e :
  get_connection s = (Ok (Some c), s1) ->
  conn_cursor c false (wld s1) = (Ok cur, w2) ->
  cursor_execute cur "SELECT 1" [] w2 = (Raise e, w3) ->
  fst (is_connected s) = Ok false /\
  trace (snd (is_connected s))
  = (trace s1 ++ [EvCursor c false; EvExecute cur "SELECT 1" []])%list.
Proof.
  intros Hget Hcur Hexe.
  unfold is_connected, try_except, bind, call, ret.
  rewrite Hget. simpl. rewrite Hcur. simpl. rewrite Hexe. simpl.
  split; [reflexivity |]. rewrite <- app_assoc. reflexivity.
Qed.

(** X10.  A connection the pool hands out but that reports itself
    disconnected is closed by [get_connection] and [None] is returned,
    whether or not closing it succeeds; the pool stays in place and no
    other driver call is made. *)
Theorem get_connection_drops_inactive (s : sys) p c w1 w2 :
  inv (db s) -> pool (db s) = Some p ->
  pool_get_connection p (wld s) = (Ok c, w1) ->
  conn_is_connected c w1 = (Ok false, w2) ->
  fst (get_connection s) = Ok None /\
  pool (db (snd (get_connection s))) = Some p /\
  trace (snd (get_connection s))
  = (trace s ++ [EvPoolGet p; EvIsConnected c; EvConnClose c])%list.
Proof.
  intros Hinv Hp Hget Hconn. unfold inv in Hinv. rewrite Hp in Hinv.
  destruct Hinv as [Hi He].
  unfold get_connection, _init_pool, try_except, bind, self, call, update, ret,
    has_pool, ceiling_exceeded.
  simpl. rewrite ?Hp. simpl. rewrite ?Hi. simpl. rewrite He. simpl.
  rewrite ?Hp. simpl. rewrite Hget. simpl. rewrite Hconn. simpl.
  destruct (conn_close c w2) as [[[] | e] w3]; simpl.
  - split; [reflexivity |]. split; [exact Hp |].
    repeat rewrite <- app_assoc. reflexivity.
  - destruct (contains "bytearray index out of range" (exn_str e)); simpl;
      [| destruct (contains "MySQL Connection not available" (exn_str e));
         simpl];
      rewrite ?Hp; simpl;
      (split; [reflexivity |]); (split; [first [exact Hp | reflexivity] |]);
      repeat rewrite <- app_assoc; reflexivity.
Qed.

End Paths.

(** ** The routes *)

Section Routes.

Context {D : Driver}.

Hint Resolve is_connected_total execute_select_total execute_write_total
  setup_database_total : total.











(** A route that starts with the probe and sees it fail. *)
Lemma probe_failed {A} (rest : M sys A) (answer : A) h (s : sys) :
  fst (is_connected s) = Ok false ->
  try_except
    (alive <- is_connected ;;
     if negb alive then ret answer else rest) h s
  = (Ok answer, snd (is_connected s)).
Proof.
  intros H. unfold try_except, bind, ret.
  destruct (is_connected s) as [[[|] | e] s1]; simpl in *; try discriminate.
  reflexivity.
Qed.

(** X12.  While the probe fails, the administration routes that need the
    database answer 503 with the failure envelope, and the settings route
    answers 200 with the built-in defaults.  Each ends in the state the
    probe left: the driver calls made are those of the probe, and no
    statement other than [SELECT 1] was sent. *)
Theorem admin_routes_unavailable (s : sys) request_id project_id json form :
  fst (is_connected s) = Ok false ->
  let s' := snd (is_connected s) in
  let rows_503 := create_response (DRows []) database_unavailable 503 false in
  let none_503 := create_response DNone database_unavailable 503 false in
  admin_get_projects s = (Ok rows_503, s') /\
  admin_get_project_requests s = (Ok rows_503, s') /\
  admin_update_project project_id json form s = (Ok none_503, s') /\
  admin_update_request_status request_id json s = (Ok none_503, s') /\
  admin_delete_project_request request_id s = (Ok none_503, s') /\
  admin_update_settings json s = (Ok none_503, s') /\
  admin_get_settings s
  = (Ok (create_dict_response fallback_settings "تم جلب الإعدادات بنجاح" 200 true),
     s') /\
  extends probe_only s s'.
Proof.
  intros H. cbv zeta.
  repeat split; try (apply probe_failed; exact H).
  apply is_connected_probe_only.
Qed.

(** A route that starts with the probe and sees it succeed. *)
Lemma probe_passed {A} (rest : M sys A) (answer : A) h (s : sys) :
  fst (is_connected s) = Ok true ->
  try_except
    (alive <- is_connected ;;
     if negb alive then ret answer else rest) h s
  = try_except rest h (snd (is_connected s)).
Proof.
  intros H. unfold try_except, bind, ret.
  destruct (is_connected s) as [[[|] | e] s1]; simpl in *; try discriminate.
  reflexivity.
Qed.

(** A step that cannot raise, followed by a fixed answer. *)
Lemma total_then {S A B} (m : M S A) (b : B) h (s : S) :
  total m -> fst (try_except (m ;; ret b) h s) = Ok b.
Proof.
  intros Ht. unfold try_except, bind, ret.
  destruct (Ht s) as [a Ha]. destruct (m s) as [r s1]. simpl in Ha. subst r.
  reflexivity.
Qed.

(** X13.  Once the probe has passed and the request carries at least one
    setting, [admin_update_settings] answers 200 with the success
    envelope whatever becomes of the writes: their results are dropped. *)
Theorem admin_update_settings_reports_success json (s : sys) :
  fst (is_connected s) = Ok true ->
  json_or_empty json <> [] ->
  fst (admin_update_settings json s)
  = Ok (create_response DNone "تم تحديث الإعدادات بنجاح" 200 true).
Proof.
  intros H Hd. unfold admin_update_settings.
  rewrite probe_passed by exact H.
  destruct (json_or_empty json) as [| kv d]; [congruence |].
  apply total_then. apply total_for_each. intros. cbv beta. total_tac.
Qed.

End Routes.

(** ** Statements and values built from a request *)

Lemma count_char_app c (a b : string) :
  count_char c (a ++ b) = (count_char c a + count_char c b)%nat.
Proof. induction a as [| x a IH]; simpl; [reflexivity | rewrite IH; lia]. Qed.

Lemma provided_fields_names mapping d :
  Forall (fun fv => In (fst fv) (map fst mapping)) (provided_fields mapping d).
Proof.
  induction mapping as [| [field_name key] mapping IH]; simpl; [constructor |].
  assert (Hrest : Forall (fun fv : string * value =>
                            field_name = fst fv \/ In (fst fv) (map fst mapping))
                         (provided_fields mapping d)).
  { eapply Forall_impl; [| exact IH]. simpl. auto. }
  destruct (dict_get d key) as [[] |]; try exact Hrest;
    constructor; simpl; auto.
Qed.

Lemma count_placeholders (l : list (string * value)) :
  Forall (fun fv => count_char "%" (fst fv) = 0%nat) l ->
  count_char "%" (String.concat ", " (map (fun fv => fst fv ++ " = %s") l))
  = length l.
Proof.
  induction l as [| fv l IH]; intros H; [reflexivity |].
  inversion H as [| ? ? Hfv Hl]; subst.
  destruct l as [| fv' l'].
  - simpl. rewrite count_char_app, Hfv. reflexivity.
  - specialize (IH Hl).
    change (String.concat ", " (map (fun fv => fst fv ++ " = %s") (fv :: fv' :: l')))
      with ((fst fv ++ " = %s") ++ ", "
            ++ String.concat ", " (map (fun fv => fst fv ++ " = %s") (fv' :: l'))).
    rewrite !count_char_app, IH, Hfv. reflexivity.
Qed.

(** X14.  The statement [admin_update_project] builds always has as many
    [%s] placeholders as the parameter list it is sent with, whatever
    fields the request carries: one per provided field, and the last one
    for the project id. *)
Theorem update_project_placeholders (d : row) (project_id : Z) :
  let provided := provided_fields fields_mapping d in
  count_char "%"
    (update_project_query (map (fun fv => fst fv ++ " = %s") provided))
  = length (map snd provided ++ [VInt project_id])%list.
Proof.
  cbv zeta. unfold update_project_query.
  rewrite !count_char_app, count_placeholders.
  - rewrite length_app, length_map.
    generalize (length (provided_fields fields_mapping d)). intros n.
    simpl. lia.
  - eapply Forall_impl; [| apply provided_fields_names].
    intros fv Hin. simpl in Hin.
    repeat (destruct Hin as [<- | Hin]; [reflexivity |]). contradiction.
Qed.

(** *** Uploaded file names *)

Lemma prefix_one a c s :
  String.prefix (String a "") (String c s) = Ascii.eqb c a.
Proof.
  cbn [String.prefix]. destruct (ascii_dec a c) as [E | E].
  - subst c. rewrite Ascii.eqb_refl. destruct s; reflexivity.
  - symmetry. apply Ascii.eqb_neq. congruence.
Qed.

Lemma contains_one a c s :
  contains (String a "") (String c s)
  = (Ascii.eqb c a || contains (String a "") s)%bool.
Proof.
  cbn [contains]. rewrite prefix_one.
  destruct (Ascii.eqb c a); reflexivity.
Qed.

Lemma contains_dot_cons c s :
  contains "." (String c s) = (Ascii.eqb c "." || contains "." s)%bool.
Proof. apply contains_one. Qed.

Lemma contains_dot_nil : contains "." "" = false.
Proof. reflexivity. Qed.

(** [rsplit] on a name without a dot. *)
Lemma rsplit_dot_none s : contains "." s = false -> rsplit_dot s = [s].
Proof.
  induction s as [| c s IH]; intros H; [reflexivity |].
  rewrite contains_dot_cons in H. apply orb_false_iff in H. destruct H as [Hc Hs].
  cbn [rsplit_dot]. rewrite (IH Hs), Hc. reflexivity.
Qed.

(** [rsplit] cuts at the last dot. *)
Lemma rsplit_dot_last stem ext :
  contains "." ext = false ->
  rsplit_dot (stem ++ "." ++ ext) = [stem; ext].
Proof.
  intros H. induction stem as [| c stem IH].
  - change ("" ++ "." ++ ext)%string with (String "." ext).
    cbn [rsplit_dot]. rewrite (rsplit_dot_none ext H). reflexivity.
  - change (String c stem ++ "." ++ ext)%string
      with (String c (stem ++ "." ++ ext)).
    cbn [rsplit_dot]. rewrite IH. reflexivity.
Qed.

Lemma rsplit_dot_some s :
  contains "." s = true ->
  exists stem ext, s = (stem ++ "." ++ ext)%string /\ contains "." ext = false.
Proof.
  induction s as [| c s IH]; intros H; [discriminate |].
  rewrite contains_dot_cons in H.
  destruct (contains "." s) eqn:Hs.
  - destruct (IH eq_refl) as (stem & ext & -> & Hext).
    exists (String c stem), ext. split; [reflexivity | exact Hext].
  - rewrite orb_false_r in H. apply Ascii.eqb_eq in H. subst c.
    exists ""%string, s. split; [reflexivity | exact Hs].
Qed.

Lemma contains_dot_app stem ext : contains "." (stem ++ "." ++ ext) = true.
Proof.
  induction stem as [| c stem IH].
  - change ("" ++ "." ++ ext)%string with (String "." ext).
    rewrite contains_dot_cons. reflexivity.
  - change (String c stem ++ "." ++ ext)%string
      with (String c (stem ++ "." ++ ext)).
    rewrite contains_dot_cons, IH. apply orb_true_r.
Qed.

(** X15.  [allowed_file] accepts exactly the names that have a dot and
    whose text after the last dot is, once lowered, one of the five image
    extensions; upper-case extensions pass and a name without a dot never
    does. *)
Theorem allowed_file_extension (filename : string) :
  allowed_file filename = true <->
  exists stem ext,
    filename = (stem ++ "." ++ ext)%string /\
    contains "." ext = false /\
    In (py_lower ext) ALLOWED_EXTENSIONS.
Proof.
  unfold allowed_file. split.
  - intros H. apply andb_true_iff in H. destruct H as [Hdot Hext].
    destruct (rsplit_dot_some filename Hdot) as (stem & ext & -> & Hno).
    rewrite (rsplit_dot_last stem ext Hno) in Hext.
    exists stem, ext. split; [reflexivity |]. split; [exact Hno |].
    apply existsb_exists in Hext. destruct Hext as (x & Hin & Heq).
    apply String.eqb_eq in Heq. subst x. exact Hin.
  - intros (stem & ext & -> & Hno & Hin).
    rewrite contains_dot_app, (rsplit_dot_last stem ext Hno), andb_true_l.
    apply existsb_exists. exists (py_lower ext). split; [exact Hin |].
    apply String.eqb_refl.
Qed.

(** *** The [Authorization] header *)

Lemma prefix_app p : forall s,
  String.prefix p s = true -> exists rest, s = (p ++ rest)%string.
Proof.
  induction p as [| a p IH]; intros s H.
  - exists s. reflexivity.
  - destruct s as [| b s]; [discriminate |]. simpl in H.
    destruct (ascii_dec a b) as [<- | _]; [| discriminate].
    destruct (IH s H) as [rest ->]. exists rest. reflexivity.
Qed.

Lemma prefix_app_refl p rest : String.prefix p (p ++ rest) = true.
Proof.
  induction p as [| a p IH].
  - destruct rest; reflexivity.
  - change (String a p ++ rest)%string with (String a (p ++ rest)).
    cbn [String.prefix]. destruct (ascii_dec a a); [exact IH | congruence].
Qed.

Lemma contains_space_cons c s :
  contains " " (String c s) = (Ascii.eqb c " " || contains " " s)%bool.
Proof. apply contains_one. Qed.

(** The first piece of [split(' ')] is the text before the first space. *)
Lemma split_spaces_first word : forall tail,
  contains " " word = false ->
  tail = ""%string \/ String.prefix " " tail = true ->
  exists words, split_spaces (word ++ tail) = word :: words.
Proof.
  induction word as [| c word IH]; intros tail Hw Ht.
  - destruct Ht as [-> | Ht].
    + exists []. reflexivity.
    + destruct tail as [| b tail]; [discriminate |].
      rewrite prefix_one in Ht.
      change ("" ++ String b tail)%string with (String b tail).
      cbn [split_spaces]. rewrite Ht. eexists. reflexivity.
  - rewrite contains_space_cons in Hw. apply orb_false_iff in Hw.
    destruct Hw as [Hc Hw].
    destruct (IH tail Hw Ht) as [words E].
    change (String c word ++ tail)%string with (String c (word ++ tail)).
    cbn [split_spaces]. rewrite Hc, E. eexists. reflexivity.
Qed.

Lemma split_spaces_cut rest :
  exists word tail,
    rest = (word ++ tail)%string /\ contains " " word = false /\
    (tail = ""%string \/ String.prefix " " tail = true).
Proof.
  induction rest as [| c rest IH].
  - exists ""%string, ""%string. auto.
  - destruct (Ascii.eqb c " ") eqn:Hc.
    + exists ""%string, (String c rest). split; [reflexivity |].
      split; [reflexivity |]. right. rewrite prefix_one. exact Hc.
    + destruct IH as (word & tail & -> & Hw & Ht).
      exists (String c word), tail. split; [reflexivity |].
      split; [| exact Ht]. rewrite contains_space_cons, Hc, Hw. reflexivity.
Qed.

Lemma split_spaces_bearer rest :
  split_spaces ("Bearer " ++ rest) = "Bearer"%string :: split_spaces rest.
Proof. reflexivity. Qed.

(** X16.  The decorator reads a token from the header exactly when the
    header starts with ["Bearer "], and the token is then the text
    between that prefix and the next space (or the end): a second space
    right after the prefix gives the empty token, and anything after the
    token is ignored. *)
Theorem bearer_token_first_word (auth_header : option string) (token : string) :
  bearer_token auth_header = Some token <->
  exists tail,
    auth_header = Some ("Bearer " ++ token ++ tail)%string /\
    contains " " token = false /\
    (tail = ""%string \/ String.prefix " " tail = true).
Proof.
  unfold bearer_token. split.
  - destruct auth_header as [h |]; [| discriminate].
    destruct (negb (h =? "")%string && String.prefix "Bearer " h) eqn:Hh;
      [| discriminate].
    apply andb_true_iff in Hh. destruct Hh as [_ Hp].
    destruct (prefix_app _ _ Hp) as [rest ->].
    destruct (split_spaces_cut rest) as (word & tail & -> & Hw & Ht).
    destruct (split_spaces_first word tail Hw Ht) as [words E].
    rewrite split_spaces_bearer, E. cbn [nth_error].
    intros H. inversion H; subst.
    exists tail. auto.
  - intros (tail & -> & Hw & Ht).
    destruct (split_spaces_first token tail Hw Ht) as [words E].
    rewrite prefix_app_refl.
    change (negb ("Bearer " ++ token ++ tail =? "")%string) with true.
    cbv beta iota delta [andb].
    rewrite split_spaces_bearer, E. reflexivity.
Qed.

(** *** Dates in result rows *)

Lemma dict_get_set r f v k :
  dict_get (dict_set r f v) k
  = if (f =? k)%string then Some v else dict_get r k.
Proof.
  induction r as [| [k' v'] r IH]; simpl.
  - reflexivity.
  - destruct (k' =? f)%string eqn:E; simpl.
    + apply String.eqb_eq in E. subst k'.
      destruct (f =? k)%string; reflexivity.
    + rewrite IH. destruct (k' =? k)%string eqn:E'; [| reflexivity].
      apply String.eqb_eq in E'. subst k'.
      rewrite String.eqb_sym in E. rewrite E. reflexivity.
Qed.

Lemma dict_set_keys r f v :
  dict_get r f <> None -> map fst (dict_set r f v) = map fst r.
Proof.
  induction r as [| [k' v'] r IH]; simpl; intros H.
  - congruence.
  - destruct (k' =? f)%string eqn:E; simpl.
    + apply String.eqb_eq in E. subst k'. reflexivity.
    + rewrite IH by exact H. reflexivity.
Qed.

Lemma convert_dates_cons f fs r :
  convert_dates (f :: fs) r = convert_dates fs (convert_dates [f] r).
Proof. reflexivity. Qed.

Lemma convert_dates_one_get f r k :
  dict_get (convert_dates [f] r) k
  = if (f =? k)%string then option_map isoformat (dict_get r k)
    else dict_get r k.
Proof.
  unfold convert_dates. cbn [fold_left].
  destruct (dict_get r f) as [v |] eqn:Hv.
  - destruct (truthy v && has_isoformat v) eqn:Hc.
    + rewrite dict_get_set. destruct (f =? k)%string eqn:E; [| reflexivity].
      apply String.eqb_eq in E. subst k. rewrite Hv. reflexivity.
    + destruct (f =? k)%string eqn:E; [| reflexivity].
      apply String.eqb_eq in E. subst k. rewrite Hv.
      destruct v; try reflexivity. discriminate Hc.
  - destruct (f =? k)%string eqn:E; [| reflexivity].
    apply String.eqb_eq in E. subst k. rewrite Hv. reflexivity.
Qed.

Lemma convert_dates_one_keys f r :
  map fst (convert_dates [f] r) = map fst r.
Proof.
  unfold convert_dates. cbn [fold_left].
  destruct (dict_get r f) as [v |] eqn:Hv; [| reflexivity].
  destruct (truthy v && has_isoformat v); [| reflexivity].
  apply dict_set_keys. congruence.
Qed.

Lemma isoformat_twice v : isoformat (isoformat v) = isoformat v.
Proof. destruct v; reflexivity. Qed.

(** X17.  The date conversion the listing routes apply to each row keeps
    the row's keys in their order, replaces the value of every listed
    field by its ISO text when it is a date, and leaves every other field
    and every other value as it was. *)
Theorem convert_dates_fields (fields : list string) (r : row) :
  map fst (convert_dates fields r) = map fst r /\
  forall k,
    dict_get (convert_dates fields r) k
    = if existsb (String.eqb k) fields
      then option_map isoformat (dict_get r k)
      else dict_get r k.
Proof.
  revert r. induction fields as [| f fields IH]; intros r.
  - split; reflexivity.
  - rewrite convert_dates_cons.
    destruct (IH (convert_dates [f] r)) as [Hkeys Hget]. split.
    + rewrite Hkeys. apply convert_dates_one_keys.
    + intros k. rewrite Hget, convert_dates_one_get. simpl existsb.
      rewrite (String.eqb_sym k f).
      destruct (f =? k)%string; simpl.
      * destruct (existsb (String.eqb k) fields); [| reflexivity].
        destruct (dict_get r k); simpl; [rewrite isoformat_twice |];
          reflexivity.
      * reflexivity.
Qed.

(** ** What the routes answer *)

Section Answers.

Context {D : Driver}.

#[local] Arguments dict_get : simpl never.
#[local] Arguments is_connected : simpl never.
#[local] Arguments execute_select : simpl never.
#[local] Arguments execute_write : simpl never.

Lemma execute_select_returns query params (s : sys) :
  exists r, execute_select query params s
            = (Ok r, snd (execute_select query params s)).
Proof.
  destruct (execute_select_total query params s) as [r Hr].
  exists r. destruct (execute_select query params s) as [r' s'].
  simpl in *. congruence.
Qed.

Lemma is_connected_returns (s : sys) :
  exists b, is_connected s = (Ok b, snd (is_connected s)).
Proof.
  destruct (is_connected_total s) as [b Hb].
  exists b. destruct (is_connected s) as [r' s']. simpl in *. congruence.
Qed.


(** X19.  The maintenance page shows the stored message only when the
    lookup returned a first row whose [setting_value] is truthy; in every
    other case ([None], no row, an empty value, a row without the column)
    it shows the built-in text.  It ends in the state the lookup left. *)
Theorem maintenance_page_message (s : sys) :
  exists v,
    maintenance_page s
    = (Ok (MaintenanceHtml v),
       snd (execute_select select_maintenance_message None s)) /\
    (v = VStr default_maintenance_message \/
     truthy v = true /\
     exists first rest,
       fst (execute_select select_maintenance_message None s)
       = Ok (Some (first :: rest)) /\
       dict_get first "setting_value" = Some v).
Proof.
  destruct (execute_select_total select_maintenance_message None s) as [r Hr].
  unfold maintenance_page, try_except, bind, ret, dict_index, raise, py_or.
  destruct (execute_select select_maintenance_message None s) as [r' s1].
  simpl in Hr. subst r'. simpl.
  destruct r as [[| [| kv first] rest] |]; simpl;
    try (eexists; split; [reflexivity | left; reflexivity]).
  destruct (dict_get (kv :: first) "setting_value") as [v |] eqn:Hv; simpl;
    try (eexists; split; [reflexivity | left; reflexivity]).
  destruct (truthy v) eqn:Ht;
    try (eexists; split; [reflexivity | left; reflexivity]).
  exists v. split; [reflexivity |]. right. split; [exact Ht |].
  exists (kv :: first), rest. auto.
Qed.

(** X20.  [get_site_status] always answers 200 with the success
    envelope, and the [maintenance_mode] it reports from a state is
    ["enabled"] exactly when [main_index] redirects to the maintenance
    page from that state. *)
Theorem site_status_agrees_with_index (s : sys) :
  exists mode connected s',
    get_site_status s
    = (Ok (create_dict_response (site_status mode connected)
             "تم جلب حالة الموقع بنجاح" 200 true), s') /\
    (mode = VStr "enabled" <-> fst (main_index s) = Ok (Redirect "/maintenance")).
Proof.
  destruct (execute_select_total SQL.select_maintenance_mode None s) as [r Hr].
  unfold get_site_status, main_index, try_except, bind, ret, dict_index, raise.
  destruct (execute_select SQL.select_maintenance_mode None s) as [r' s1].
  simpl in Hr. subst r'.
  destruct (is_connected_total s1) as [b Hb].
  assert (Hoff : VStr "disabled" = VStr "enabled" <->
                 @Ok response (SendFile "." "hawkstudio.html")
                 = Ok (Redirect "/maintenance"))
    by (split; discriminate).
  destruct r as [[| [| kv first] rest] |]; simpl;
    try (destruct (is_connected s1) as [rb s2]; simpl in Hb; subst rb; simpl;
         do 3 eexists; split; [reflexivity | exact Hoff]).
  destruct (dict_get (kv :: first) "setting_value") as [v |] eqn:Hv; simpl.
  - destruct (is_connected s1) as [rb s2]. simpl in Hb. subst rb. simpl.
    do 3 eexists. split; [reflexivity |].
    destruct (eq_str (py_or v (VStr "disabled")) "enabled") eqn:Heq; simpl.
    + apply eq_str_enabled in Heq. rewrite Heq. split; reflexivity.
    + split; [| discriminate]. intros Hm.
      apply eq_str_enabled in Hm. congruence.
  - do 3 eexists. split; [reflexivity | exact Hoff].
Qed.

Lemma create_project_request_json json :
  create_project_request json
  = create_project_request (Some (json_or_empty json)).
Proof. destruct json as [[| kv d] |]; reflexivity. Qed.


End Answers.

(** ** The decorator *)

Section Decorator.

Context {D : Driver}.

Variable JWT_SECRET : string.
Variable jwt_decode : string -> string -> jwt_result.

(** X22.  A route wrapped by [token_required] runs only on a header from
    which a non-empty token was read and which [jwt.decode] accepts, and
    it is then run on the decoded claims from the untouched state; its
    outcome is the outcome of the request.  Every refusal is a 401 that
    leaves the state untouched. *)
Theorem token_required_guard {A} (f : row -> M sys A) auth_header (s : sys) :
  match token_required JWT_SECRET jwt_decode f auth_header s with
  | (Ok (Refused error status), s') => status = 401 /\ s' = s
  | (Ok (Passed a), s') =>
      exists token data,
        bearer_token auth_header = Some token /\ token <> ""%string /\
        jwt_decode token JWT_SECRET = Decoded data /\
        f data s = (Ok a, s')
  | (Raise e, s') =>
      exists token data,
        bearer_token auth_header = Some token /\ token <> ""%string /\
        jwt_decode token JWT_SECRET = Decoded data /\
        f data s = (Raise e, s')
  end.
Proof.
  unfold token_required, bind, ret.
  destruct (bearer_token auth_header) as [[| c token] |]; simpl; auto.
  destruct (jwt_decode (String c token) JWT_SECRET) as [data | |] eqn:Hd;
    simpl; auto.
  destruct (f data s) as [[a | e] s'] eqn:Hf;
    exists (String c token), data; repeat split; auto; discriminate.
Qed.

End Decorator.

(** ** What reaches the driver *)

Section Sent.

Context {D : Driver}.

Hint Extern 1 (steps (extends _) (call _ _)) =>
  (apply extends_call; simpl; auto) : steps.
Hint Resolve extends_update : steps.

Lemma _init_pool_select_event q ps :
  steps (extends (select_event q ps)) _init_pool.
Proof. unfold _init_pool. steps_tac. Qed.

Lemma _init_pool_write_event q ps :
  steps (extends (write_event q ps)) _init_pool.
Proof. unfold _init_pool. steps_tac. Qed.

Hint Resolve _init_pool_select_event _init_pool_write_event : steps.

Lemma get_connection_select_event q ps :
  steps (extends (select_event q ps)) get_connection.
Proof. unfold get_connection. steps_tac. Qed.

Lemma get_connection_write_event q ps :
  steps (extends (write_event q ps)) get_connection.
Proof. unfold get_connection. steps_tac. Qed.

Hint Resolve get_connection_select_event get_connection_write_event : steps.

Lemma execute_select_select_event query params :
  steps (extends (select_event query (params_or_empty params)))
        (execute_select query params).
Proof.
  unfold execute_select, close_resources, reinit_on_known_errors.
  steps_tac.
Qed.

Lemma execute_write_write_event query params :
  steps (extends (write_event query (params_or_empty params)))
        (execute_write query params).
Proof.
  unfold execute_write, close_resources, reinit_on_known_errors,
    rollback_quietly.
  steps_tac.
Qed.

(** X23.  The only statement an executor sends is the one it was called
    with, with the parameters it was given.  [execute_select] never
    commits and never rolls back; [execute_write] never fetches. *)
Theorem executors_send_their_statement query params (s : sys) :
  extends (select_event query (params_or_empty params))
          s (snd (execute_select query params s)) /\
  extends (write_event query (params_or_empty params))
          s (snd (execute_write query params s)).
Proof.
  split.
  - apply execute_select_select_event.
  - apply execute_write_write_event.
Qed.

Lemma steps_extends_impl {A} (P Q : event -> Prop) (m : M sys A) :
  (forall ev, P ev -> Q ev) ->
  steps (extends P) m -> steps (extends Q) m.
Proof.
  intros HPQ Hm s. destruct (Hm s) as [evs [Ht Hall]].
  exists evs. split; [exact Ht |].
  eapply Forall_impl; [| exact Hall]. exact HPQ.
Qed.

Lemma execute_select_read_only query params :
  In query read_statements ->
  steps (extends read_only) (execute_select query params).
Proof.
  intros Hin.
  apply (steps_extends_impl (select_event query (params_or_empty params)));
    [| apply execute_select_select_event].
  intros [] H; simpl in *; auto.
  destruct H as [-> _]. exact Hin.
Qed.

Lemma is_connected_read_only : steps (extends read_only) is_connected.
Proof.
  apply (steps_extends_impl probe_only); [| apply is_connected_probe_only].
  intros [] H; simpl in *; auto; subst; left; reflexivity.
Qed.

Hint Resolve is_connected_read_only : steps.
Hint Extern 1 (steps (extends read_only) (execute_select _ _)) =>
  (apply execute_select_read_only; simpl; auto 10) : steps.

Lemma collect_settings_steps (T : sys -> sys -> Prop) `{!PreOrder T} rows :
  forall settings, steps T (collect_settings rows settings).
Proof.
  induction rows as [| item rows IH]; intros settings; simpl.
  - steps_tac.
  - unfold dict_index. steps_tac; apply IH.
Qed.

(** X24.  The routes that only read never change the database: none of
    them commits or rolls back, and the only statements they send are the
    probe and the fixed [SELECT] statements. *)
Theorem read_routes_never_write :
  steps (extends read_only) main_index /\
  steps (extends read_only) maintenance_page /\
  steps (extends read_only) get_projects /\
  steps (extends read_only) get_site_status /\
  steps (extends read_only) admin_get_projects /\
  steps (extends read_only) admin_get_project_requests /\
  steps (extends read_only) admin_get_settings.
Proof.
  pose proof (collect_settings_steps (extends read_only)) as Hcollect.
  unfold main_index, maintenance_page, get_projects, get_site_status,
    admin_get_projects, admin_get_project_requests, admin_get_settings,
    dict_index.
  repeat split; steps_tac; apply Hcollect.
Qed.

(** X25.  [_init_pool] returns [True] exactly when a pool is in place
    after the call.  The failure counter is reset when a pool has just
    been built, left alone when one was already there, and raised by one
    when the construction failed. *)
Theorem init_pool_reports_pool (s : sys) :
  let s' := snd (_init_pool s) in
  fst (_init_pool s) = Ok (has_pool (db s')) /\
  _error_count (db s')
  = if has_pool (db s')
    then (if has_pool (db s) then _error_count (db s) else 0)
    else _error_count (db s) + 1.
Proof.
  cbv zeta.
  unfold _init_pool, try_except, bind, self, call, update, ret, has_pool.
  simpl. destruct (pool (db s)) as [p |] eqn:Hp; simpl.
  - rewrite Hp. auto.
  - destruct (MySQLConnectionPool (pool_config_of (db s)) (wld s))
      as [[p | e] w]; simpl; auto.
Qed.

Lemma execute_select_bootstrap query params :
  In query bootstrap_statements ->
  steps (extends bootstrap_event) (execute_select query params).
Proof.
  intros Hin.
  apply (steps_extends_impl (select_event query (params_or_empty params)));
    [| apply execute_select_select_event].
  intros [] H; simpl in *; auto; try contradiction.
  destruct H as [-> _]. exact Hin.
Qed.

Lemma execute_write_bootstrap query params :
  In query bootstrap_statements ->
  steps (extends bootstrap_event) (execute_write query params).
Proof.
  intros Hin.
  apply (steps_extends_impl (write_event query (params_or_empty params)));
    [| apply execute_write_write_event].
  intros [] H; simpl in *; auto; try contradiction.
  destruct H as [-> _]. exact Hin.
Qed.

Lemma is_connected_bootstrap : steps (extends bootstrap_event) is_connected.
Proof.
  apply (steps_extends_impl probe_only); [| apply is_connected_probe_only].
  intros [] H; simpl in *; auto; try contradiction.
Qed.

Hint Resolve is_connected_bootstrap : steps.
Hint Extern 1 (steps (extends bootstrap_event) (execute_select _ _)) =>
  (apply execute_select_bootstrap; unfold bootstrap_statements; simpl; tauto)
  : steps.
Hint Extern 1 (steps (extends bootstrap_event) (execute_write _ _)) =>
  (apply execute_write_bootstrap; unfold bootstrap_statements; simpl; tauto)
  : steps.

Lemma create_tables_bootstrap : steps (extends bootstrap_event) create_tables.
Proof.
  unfold create_tables, create_table_queries. cbn [for_fold]. steps_tac.
Qed.

Lemma fix_database_issues_bootstrap :
  steps (extends bootstrap_event) fix_database_issues.
Proof. unfold fix_database_issues. steps_tac. Qed.

Lemma setup_database_bootstrap : steps (extends bootstrap_event) setup_database.
Proof.
  pose proof create_tables_bootstrap. pose proof fix_database_issues_bootstrap.
  unfold setup_database. steps_tac.
Qed.

(** X26.  The bootstrap, whether run at startup or through the
    [fix-database] route, only ever sends the probe, the four
    [CREATE TABLE IF NOT EXISTS] statements, and the lookups and inserts
    of the repair pass; it sends nothing that drops, deletes or updates,
    and the only password it hashes is the default administrator's. *)
Theorem bootstrap_statements_only :
  steps (extends bootstrap_event) create_tables /\
  steps (extends bootstrap_event) fix_database_issues /\
  steps (extends bootstrap_event) setup_database /\
  steps (extends bootstrap_event) fix_database.
Proof.
  pose proof setup_database_bootstrap.
  repeat split.
  - apply create_tables_bootstrap.
  - apply fix_database_issues_bootstrap.
  - assumption.
  - unfold fix_database. steps_tac.
Qed.

End Sent.

(** ** The bootstrap on a running server *)

(** X27.  On the server with a store, when the server is up and the
    [Database] object is not in a state in which [get_connection] gives
    up at once (a fresh object is not), [setup_database] returns [True]
    and leaves all four tables in place, with the default administrator
    and every default setting, whatever the store held before. *)
Theorem bootstrap_completes (s : @sys Server.driver) :
  Server.up (wld s) = true -> blocked (db s) = false ->
  fst (@setup_database Server.driver s) = Ok true /\
  bootstrapped (Server.st (wld (snd (@setup_database Server.driver s)))).
Proof.
  intros Hup Hb.
  destruct (server_probe_up s Hup Hb) as (s1 & E & Hs1 & Hst).
  destruct (server_setup_after_probe s s1 E Hs1) as (h & s' & E' & _ & Hst').
  rewrite E'. simpl. split; [reflexivity |].
  rewrite Hst'. apply seeded_bootstrapped.
Qed.

Lemma parse_insert_project_request :
  Server.parse SQL.insert_project_request = Some Server.InsertProjectRequest.
Proof. reflexivity. Qed.

Lemma truthy_not_none d k :
  missing d k = false -> exists v, dict_get d k = Some v /\ v <> VNone.
Proof.
  unfold missing. destruct (dict_get d k) as [v |]; [| discriminate].
  intros H. exists v. split; [reflexivity |]. intros ->. discriminate.
Qed.

(** X28.  On the server with a store, while the [Database] is serving
    and the requests table exists, a project request that carries its
    three required fields is answered 201 and stored: the table gains
    exactly one row, made of the request's fields, with [project_type]
    defaulting to ["website"]. *)
Theorem project_request_is_stored json (s : @sys Server.driver) t :
  serving s ->
  Server.project_requests (Server.st (wld s)) = Some t ->
  (missing (json_or_empty json) "name"
   || missing (json_or_empty json) "email"
   || missing (json_or_empty json) "description")%bool = false ->
  fst (@create_project_request Server.driver json s)
  = Ok (create_response DNone "تم استلام طلبك بنجاح" 201 true) /\
  Server.project_requests
    (Server.st (wld (snd (@create_project_request Server.driver json s))))
  = Some (Server.insert_row (request_row (json_or_empty json)) t).
Proof.
  intros Hs Ht. rewrite create_project_request_json.
  generalize (json_or_empty json). intros d Hm.
  destruct d as [| kv d']; [cbn in Hm; discriminate Hm |].
  revert Hm. unfold create_project_request, request_row.
  cbv beta iota zeta.
  generalize (kv :: d'). clear kv d'. intros d Hm.
  apply orb_false_iff in Hm. destruct Hm as [Hm H3].
  apply orb_false_iff in Hm. destruct Hm as [H1 H2].
  destruct (truthy_not_none _ _ H1) as (v1 & E1 & N1).
  destruct (truthy_not_none _ _ H2) as (v2 & E2 & N2).
  destruct (truthy_not_none _ _ H3) as (v3 & E3 & N3).
  unfold missing in H1, H2, H3. rewrite E1 in H1. rewrite E2 in H2.
  rewrite E3 in H3.
  apply negb_false_iff in H1, H2, H3.
  unfold try_except. cbn [first_missing]. rewrite E1, H1, E2, H2, E3, H3.
  match goal with
  | |- context [execute_write ?q ?ps] =>
      destruct (server_execute_write q ps s Hs) as (s' & E & _ & Hst)
  end.
  rewrite (bind_ok _ _ _ _ _ E).
  unfold count_of, sql_result in *. rewrite parse_insert_project_request in *.
  unfold get_or in *. rewrite E1, E2, E3 in *.
  cbn [params_or_empty Server.run] in *. rewrite Ht in *.
  destruct v1; try congruence; destruct v2; try congruence;
    destruct v3; try congruence; cbn in *; rewrite Hst; auto.
Qed.

(** ** Instances *)

Lemma pool_built_once_witness :
  (inv (db pooled_healthy) /\ pool (db pooled_healthy) = Some 1%nat) /\
  (pool (db (call_methods sample_calls pooled_healthy)) = Some 1%nat /\
   ceiling_exceeded (db (call_methods sample_calls pooled_healthy)) = false /\
   exists evs,
     trace (call_methods sample_calls pooled_healthy)
     = (trace pooled_healthy ++ evs)%list /\
     forall cfg, ~ In (EvPoolNew cfg) evs).
Proof.
  split.
  - repeat split.
  - apply (@pool_built_once healthy_driver pooled_healthy 1%nat sample_calls).
    + split; reflexivity.
    + reflexivity.
Defined.

Lemma get_connection_reaches_driver_witness :
  inv (db fresh_unreachable) /\
  exists evs,
    trace (snd (get_connection fresh_unreachable))
    = (trace fresh_unreachable
       ++ first_driver_call (db fresh_unreachable) :: evs)%list.
Proof.
  split.
  - reflexivity.
  - apply (@get_connection_reaches_driver _ fresh_unreachable). reflexivity.
Defined.


Lemma executors_without_connection_witness :
  get_connection fresh_unreachable
  = (Ok None, snd (get_connection fresh_unreachable)) /\
  (execute_select SQL.select_projects None fresh_unreachable
   = (Ok None, snd (get_connection fresh_unreachable)) /\
   execute_write SQL.select_projects None fresh_unreachable
   = (Ok None, snd (get_connection fresh_unreachable))).
Proof.
  split.
  - reflexivity.
  - apply (@executors_without_connection _ SQL.select_projects None
             fresh_unreachable (snd (get_connection fresh_unreachable))).
    reflexivity.
Defined.


Lemma is_connected_round_trip_witness :
  fst (is_connected fresh_healthy) = Ok true /\
  exists s1 c cur,
    get_connection fresh_healthy = (Ok (Some c), s1) /\
    db (snd (is_connected fresh_healthy)) = db s1 /\
    trace (snd (is_connected fresh_healthy))
    = (trace s1 ++ [EvCursor c false; EvExecute cur "SELECT 1" [];
                    EvFetchone cur; EvCursorClose cur; EvConnClose c])%list.
Proof.
  split.
  - reflexivity.
  - apply (@is_connected_round_trip healthy_driver fresh_healthy). reflexivity.
Defined.

Lemma is_connected_failed_probe_witness :
  (get_connection fresh_dead
   = (Ok (Some 2%nat), snd (get_connection fresh_dead)) /\
   @conn_cursor (Faulty.driver dead_statements) 2%nat false
     (wld (snd (get_connection fresh_dead))) = (Ok 3%nat, tt) /\
   @cursor_execute (Faulty.driver dead_statements) 3%nat "SELECT 1" [] tt
   = (Raise connection_lost, tt)) /\
  (fst (is_connected fresh_dead) = Ok false /\
   trace (snd (is_connected fresh_dead))
   = (trace (snd (get_connection fresh_dead))
      ++ [EvCursor 2%nat false; EvExecute 3%nat "SELECT 1" []])%list).
Proof.
  split.
  - split; [| split]; vm_compute; reflexivity.
  - apply (@is_connected_failed_probe (Faulty.driver dead_statements)
             fresh_dead (snd (get_connection fresh_dead))
             2%nat 3%nat tt tt connection_lost);
      vm_compute; reflexivity.
Defined.

Lemma get_connection_drops_inactive_witness :
  (inv (db pooled_stale) /\ pool (db pooled_stale) = Some 1%nat /\
   @pool_get_connection (Faulty.driver stale_connections) 1%nat (wld pooled_stale)
   = (Ok 2%nat, tt) /\
   @conn_is_connected (Faulty.driver stale_connections) 2%nat tt
   = (Ok false, tt)) /\
  (fst (get_connection pooled_stale) = Ok None /\
   pool (db (snd (get_connection pooled_stale))) = Some 1%nat /\
   trace (snd (get_connection pooled_stale))
   = (trace pooled_stale
      ++ [EvPoolGet 1%nat; EvIsConnected 2%nat; EvConnClose 2%nat])%list).
Proof.
  split.
  - repeat split.
  - apply (@get_connection_drops_inactive (Faulty.driver stale_connections)
             pooled_stale 1%nat 2%nat tt tt).
    + split; reflexivity.
    + reflexivity.
    + reflexivity.
    + reflexivity.
Defined.

Lemma admin_routes_unavailable_witness :
  fst (is_connected fresh_unreachable) = Ok false /\
  admin_get_settings fresh_unreachable
  = (Ok (create_dict_response fallback_settings "تم جلب الإعدادات بنجاح" 200 true),
     snd (is_connected fresh_unreachable)) /\
  admin_delete_project_request 7 fresh_unreachable
  = (Ok (create_response DNone database_unavailable 503 false),
     snd (is_connected fresh_unreachable)).
Proof.
  split; [reflexivity |].
  pose proof (@admin_routes_unavailable _ fresh_unreachable 7 7 None []
                eq_refl) as H.
  cbv zeta in H.
  destruct H as (_ & _ & _ & _ & Hdel & _ & Hset & _).
  split; [exact Hset | exact Hdel].
Defined.

Lemma admin_update_settings_reports_success_witness :
  (fst (is_connected fresh_flaky) = Ok true /\
   json_or_empty (Some sample_settings) <> []) /\
  fst (admin_update_settings (Some sample_settings) fresh_flaky)
  = Ok (create_response DNone "تم تحديث الإعدادات بنجاح" 200 true).
Proof.
  split.
  - split; [reflexivity | discriminate].
  - apply (@admin_update_settings_reports_success _ (Some sample_settings)
             fresh_flaky).
    + reflexivity.
    + discriminate.
Defined.



Lemma bootstrap_completes_witness :
  (Server.up (wld fresh_online) = true /\ blocked (db fresh_online) = false) /\
  (fst (@setup_database Server.driver fresh_online) = Ok true /\
   bootstrapped
     (Server.st (wld (snd (@setup_database Server.driver fresh_online))))).
Proof.
  split.
  - split; reflexivity.
  - apply (bootstrap_completes fresh_online); reflexivity.
Defined.

Lemma project_request_is_stored_witness :
  (serving bootstrapped_online /\
   Server.project_requests (Server.st (wld bootstrapped_online))
   = Some Server.empty_table /\
   (missing (json_or_empty (Some sample_request)) "name"
    || missing (json_or_empty (Some sample_request)) "email"
    || missing (json_or_empty (Some sample_request)) "description")%bool
   = false) /\
  (fst (@create_project_request Server.driver (Some sample_request)
          bootstrapped_online)
   = Ok (create_response DNone "تم استلام طلبك بنجاح" 201 true) /\
   Server.project_requests
     (Server.st (wld (snd (@create_project_request Server.driver
                             (Some sample_request) bootstrapped_online))))
   = Some (Server.insert_row (request_row (json_or_empty (Some sample_request)))
             Server.empty_table)).
Proof.
  split.
  - repeat split.
  - apply (project_request_is_stored (Some sample_request) bootstrapped_online
             Server.empty_table).
    + repeat split.
    + reflexivity.
    + reflexivity.
Defined.

